(** * The worker runtime of osom_api (src/osom_api/apps/worker/context.py)

    A shallow embedding of [WorkerContext]: the registration handshake, the
    persistence orchestration, one polling iteration and the polling loop.

    The runtime talks to three collaborators (the broker [_mq], the database
    [_db], the object store [_s3]) and to the loaded command module.  Every
    call to one of them is recorded, in program order, in a trace of events;
    whether the call returns or raises is decided by an oracle that may look
    at the whole trace so far.  A computation of the runtime is a function
    from the trace so far to an outcome (a value or a raised exception) and
    the extended trace: effects performed before a [raise] stay performed. *)

From Stdlib Require Import String List ZArith QArith Qround Bool Arith Lia.
Import ListNotations.
Local Close Scope Q_scope.
Local Open Scope string_scope.
Local Open Scope list_scope.

(** ** Bytes *)

Definition bytes := list Byte.byte.

Fixpoint bytes_eqb (a b : bytes) : bool :=
  match a, b with
  | [], [] => true
  | x :: a', y :: b' => Byte.eqb x y && bytes_eqb a' b'
  | _, _ => false
  end.

(** ** Exceptions

    The classes that context.py raises or catches.  [OtherError] stands for
    any class raised by a collaborator or by the command module. *)

Inductive exn_class : Type :=
| BufferError
| AssertionError
| OsomApiError
| CommandRuntimeError
| InvalidMessageIdError
| NoMessageIdError
| PacketDumpError
| PacketLoadError
| PollingTimeoutError
| OtherError (name : string).

Definition exn_class_eqb (a b : exn_class) : bool :=
  match a, b with
  | BufferError, BufferError => true
  | AssertionError, AssertionError => true
  | OsomApiError, OsomApiError => true
  | CommandRuntimeError, CommandRuntimeError => true
  | InvalidMessageIdError, InvalidMessageIdError => true
  | NoMessageIdError, NoMessageIdError => true
  | PacketDumpError, PacketDumpError => true
  | PacketLoadError, PacketLoadError => true
  | PollingTimeoutError, PollingTimeoutError => true
  | OtherError n, OtherError m => String.eqb n m
  | _, _ => false
  end.

(** An exception value: its class, its message ([str(e)]) and the exception
    it was raised [from], if any. *)
Inductive exn : Type :=
| Exn (cls : exn_class) (msg : string)
| ExnFrom (cls : exn_class) (msg : string) (cause : exn).

Definition exn_cls (e : exn) : exn_class :=
  match e with Exn c _ | ExnFrom c _ _ => c end.

Definition str (e : exn) : string :=
  match e with Exn _ m | ExnFrom _ m _ => m end.

Inductive result (A : Type) : Type :=
| Ok (a : A)
| Raise (e : exn).
Arguments Ok {A} a.
Arguments Raise {A} e.

(** ** Wire structures (osom_api.msg), with the fields context.py reads *)

Inductive MsgFlow : Type := request | response.
Inductive MsgStorage : Type := r2 | other_storage (name : string).

Module MsgFile.
Record t : Type := make {
  file_uuid : string;
  provider : string;
  name : string;
  content_type : string;
  native_id : string;
  content : option bytes;
  path : string;
  created_at : string  (* the value of created_at.isoformat() *)
}.
End MsgFile.

Module MsgRequest.
Record t : Type := make {
  msg_uuid : string;
  provider : string;
  message_id : string;
  channel_id : string;
  username : string;
  nickname : string;
  content : string;
  files : list MsgFile.t;
  created_at : string
}.
End MsgRequest.

Module MsgResponse.
Record t : Type := make {
  msg_uuid : string;
  content : option string;
  error : option string;
  files : list MsgFile.t;
  created_at : string
}.
End MsgResponse.

Module MsgWorker.
Record t : Type := make {
  name : string;
  version : string;
  doc : string;
  path : string;
  cmds : list string
}.
End MsgWorker.

(** The static part of the loaded command module (osom_api.worker.module). *)
Module Module.
Record t : Type := make {
  name : string;
  version : string;
  doc : string;
  path : string;
  cmds : list string
}.
End Module.

(** The configuration values the runtime reads.  The two durations are
    Python floats; a finite float is a rational, and [math.floor] of it is
    the exact integer floor. *)
Module WorkerConfig.
Record t : Type := make {
  module_path : string;
  isolate_module : bool;
  redis_blocking_timeout : Q;
  redis_expire_medium : Q;
  verbose : Z;
  debug : bool
}.
End WorkerConfig.

(** ** Events: the calls the runtime makes, in program order *)

Inductive log_level : Type := DEBUG | INFO | WARNING | ERROR.

Inductive event : Type :=
| EvBrpop (key : string) (timeout : Z)
| EvLpush (key : string) (packet : bytes) (expire : Z)
| EvPublish (key : string) (packet : bytes)
| EvUploadData (data : bytes) (key : string) (content_type : string)
| EvInsertFile (file_uuid provider : string) (storage : MsgStorage)
               (name content_type native_id created_at : string)
| EvInsertMsg2File (msg_uuid file_uuid : string) (flow : MsgFlow)
| EvInsertMsg (msg_uuid provider message_id channel_id username nickname
               content created_at : string)
| EvInsertReply (msg : string) (content error : option string)
                (created_at : string)
| EvRun (req : MsgRequest.t)
| EvLog (level : log_level) (text : string).

Definition trace := list event.

(** ** The state-and-exception monad of the runtime *)

Definition M (A : Type) : Type := trace -> result A * trace.

Definition ret {A} (a : A) : M A := fun tr => (Ok a, tr).

Definition bind {A B} (c : M A) (k : A -> M B) : M B :=
  fun tr =>
    match c tr with
    | (Ok a, tr') => k a tr'
    | (Raise e, tr') => (Raise e, tr')
    end.

Definition raise {A} (e : exn) : M A := fun tr => (Raise e, tr).

(** [try: c except BaseException as e: h e] *)
Definition try_except {A} (c : M A) (h : exn -> M A) : M A :=
  fun tr =>
    match c tr with
    | (Ok a, tr') => (Ok a, tr')
    | (Raise e, tr') => h e tr'
    end.

(** A call to a collaborator: the oracle sees the trace before the call;
    the call is recorded whether it returns or raises. *)
Definition call {A} (ev : event) (outcome : trace -> exn + A) : M A :=
  fun tr =>
    match outcome tr with
    | inl e => (Raise e, tr ++ [ev])
    | inr a => (Ok a, tr ++ [ev])
    end.

(** A call that returns nothing: the oracle gives the fault, if any. *)
Definition call_unit (ev : event) (fault : trace -> option exn) : M unit :=
  call ev (fun tr => match fault tr with Some e => inl e | None => inr tt end).

Definition log (level : log_level) (text : string) : M unit :=
  fun tr => (Ok tt, tr ++ [EvLog level text]).

Declare Scope rt_scope.
Delimit Scope rt_scope with rt.
Notation "x <- c ;; k" := (bind c (fun x => k))
  (at level 61, c at next level, right associativity) : rt_scope.
Notation "c ;; k" := (bind c (fun _ => k))
  (at level 61, right associativity) : rt_scope.
Local Open Scope rt_scope.

(** ** The environment: what context.py imports and src/ does not contain

    The codec, the path helpers and constants, and the behaviour of the
    collaborators.  The codec and [encode_path] are pure.  Each collaborator
    operation maps the trace so far and its arguments to its outcome. *)
Record Env : Type := {
  (* osom_api.utils.path.mq and osom_api.paths *)
  encode_path : string -> bytes;
  MQ_BROADCAST_PATH : string;
  MQ_REGISTER_WORKER_PATH : string;
  MQ_REGISTER_WORKER_REQUEST_PATH : string;
  (* osom_api.arguments *)
  VERBOSE_LEVEL_1 : Z;
  (* osom_api.msg: codec, reply path, defaults of MsgResponse(...) *)
  MsgWorker_encode : MsgWorker.t -> bytes;
  MsgRequest_decode : bytes -> exn + MsgRequest.t;
  MsgResponse_encode : MsgResponse.t -> exn + bytes;
  get_response_path : MsgRequest.t -> string;
  MsgResponse_default_content : option string;
  MsgResponse_default_files : list MsgFile.t;
  MsgResponse_default_created_at : trace -> string;
  (* osom_api.exceptions: [derives c d] when class c is declared as a
     proper descendant of class d *)
  derives : exn_class -> exn_class -> bool;
  (* the broker *)
  mq_brpop_bytes : trace -> string -> Z -> exn + option (bytes * bytes);
  mq_lpush_bytes : trace -> string -> bytes -> Z -> option exn;
  mq_publish : trace -> string -> bytes -> option exn;
  (* the object store and the database *)
  s3_upload_data : trace -> bytes -> string -> string -> option exn;
  db_insert_file : trace -> MsgFile.t -> MsgStorage -> option exn;
  db_insert_msg2file : trace -> string -> string -> MsgFlow -> option exn;
  db_insert_msg : trace -> MsgRequest.t -> option exn;
  db_insert_reply : trace -> MsgResponse.t -> option exn;
  (* the command module's run *)
  module_run : trace -> MsgRequest.t -> exn + MsgResponse.t
}.

(** [isinstance(e, c)]: the class of [e] is [c] or derives from it. *)
Definition isinstance (env : Env) (e : exn) (c : exn_class) : bool :=
  exn_class_eqb (exn_cls e) c || derives env (exn_cls e) c.

(** ** WorkerContext *)

Module WorkerContext.
Record t : Type := make {
  _config : WorkerConfig.t;
  _broadcast_path : bytes;
  _register_request_path : bytes;
  _module : Module.t;
  _register : MsgWorker.t;
  _register_packet : bytes
}.
End WorkerContext.
Import WorkerContext.

(** [WorkerContext.__init__], given the parsed configuration and the loaded
    module: the registration packet is encoded once, here. *)
Definition WorkerContext_init (env : Env) (config : WorkerConfig.t)
    (module : Module.t) : WorkerContext.t :=
  let register :=
    MsgWorker.make (Module.name module) (Module.version module)
                   (Module.doc module) (Module.path module)
                   (Module.cmds module) in
  WorkerContext.make
    config
    (encode_path env (MQ_BROADCAST_PATH env))
    (encode_path env (MQ_REGISTER_WORKER_REQUEST_PATH env))
    module
    register
    (MsgWorker_encode env register).


(** ** The methods of WorkerContext *)

Section Runtime.

Variable env : Env.
Variable self : WorkerContext.t.

(** lines 60-62 *)
Definition publish_register_worker : M unit :=
  call_unit (EvPublish (MQ_REGISTER_WORKER_PATH env) (_register_packet self))
            (fun tr => mq_publish env tr (MQ_REGISTER_WORKER_PATH env)
                                  (_register_packet self)) ;;
  log INFO "Published register worker packet!".

(** lines 64-67 *)
Definition on_mq_connect : M unit :=
  log INFO "Connection to redis was successful!" ;;
  publish_register_worker.

(** lines 69-73; the logged text leaves out the repr of channel and data *)
Definition on_mq_subscribe (channel data : bytes) : M unit :=
  log INFO "Recv sub msg channel" ;;
  if bytes_eqb (_register_request_path self) channel
  then publish_register_worker
  else ret tt.

(** lines 89-128 *)
Definition upload_msg_file (file : MsgFile.t) (msg_uuid : string)
    (flow : MsgFlow) (storage : MsgStorage) : M unit :=
  match MsgFile.content file with
  | None => raise (Exn BufferError "Empty file content")
  | Some content =>
    call_unit
      (EvUploadData content (MsgFile.path file) (MsgFile.content_type file))
      (fun tr => s3_upload_data env tr content (MsgFile.path file)
                                (MsgFile.content_type file)) ;;
    log INFO ("Successfully uploaded file to S3: '" ++ MsgFile.path file
              ++ "'") ;;
    call_unit
      (EvInsertFile (MsgFile.file_uuid file) (MsgFile.provider file) storage
                    (MsgFile.name file) (MsgFile.content_type file)
                    (MsgFile.native_id file) (MsgFile.created_at file))
      (fun tr => db_insert_file env tr file storage) ;;
    log INFO ("Successfully inserted file info to DB: '"
              ++ MsgFile.file_uuid file ++ "' -> '" ++ MsgFile.path file
              ++ "'") ;;
    call_unit
      (EvInsertMsg2File msg_uuid (MsgFile.file_uuid file) flow)
      (fun tr => db_insert_msg2file env tr msg_uuid (MsgFile.file_uuid file)
                                    flow) ;;
    log INFO ("Successfully inserted msg2file info to DB: '" ++ msg_uuid
              ++ "' -> " ++ MsgFile.file_uuid file)
  end.

(** lines 130-138 *)
Fixpoint upload_msg_files (files : list MsgFile.t) (msg_uuid : string)
    (flow : MsgFlow) (storage : MsgStorage) : M unit :=
  match files with
  | [] => ret tt
  | file :: rest =>
    upload_msg_file file msg_uuid flow storage ;;
    upload_msg_files rest msg_uuid flow storage
  end.

(** lines 140-157 *)
Definition upload_msg_request (message : MsgRequest.t) : M unit :=
  call_unit
    (EvInsertMsg (MsgRequest.msg_uuid message) (MsgRequest.provider message)
                 (MsgRequest.message_id message)
                 (MsgRequest.channel_id message)
                 (MsgRequest.username message) (MsgRequest.nickname message)
                 (MsgRequest.content message)
                 (MsgRequest.created_at message))
    (fun tr => db_insert_msg env tr message) ;;
  log INFO ("Successfully inserted msg_request to DB: '"
            ++ MsgRequest.msg_uuid message ++ "'") ;;
  upload_msg_files (MsgRequest.files message) (MsgRequest.msg_uuid message)
                   request r2.

(** lines 159-172 *)
Definition upload_msg_response (message : MsgResponse.t) : M unit :=
  call_unit
    (EvInsertReply (MsgResponse.msg_uuid message)
                   (MsgResponse.content message) (MsgResponse.error message)
                   (MsgResponse.created_at message))
    (fun tr => db_insert_reply env tr message) ;;
  log INFO ("Successfully inserted msg_response to DB: '"
            ++ MsgResponse.msg_uuid message ++ "'") ;;
  upload_msg_files (MsgResponse.files message) (MsgResponse.msg_uuid message)
                   response r2.

(** lines 236-252 *)
Definition on_message (req : MsgRequest.t) : M MsgResponse.t :=
  upload_msg_request req ;;
  resp <- try_except
            (call (EvRun req) (fun tr => module_run env tr req))
            (fun e => raise (ExnFrom CommandRuntimeError
                               "A command runtime error was detected" e)) ;;
  upload_msg_response resp ;;
  if negb (String.eqb (MsgResponse.msg_uuid resp) (MsgRequest.msg_uuid req))
  then raise (Exn InvalidMessageIdError
                ("The UUID in the request message and "
                 ++ "the UUID in the response message must be the same"))
  else ret resp.

(** [MsgResponse(msg_uuid, error=error)]: the other fields take the
    defaults of the class. *)
Definition MsgResponse_new (msg_uuid error : string) : M MsgResponse.t :=
  fun tr =>
    (Ok (MsgResponse.make msg_uuid (MsgResponse_default_content env)
           (Some error) (MsgResponse_default_files env)
           (MsgResponse_default_created_at env tr)),
     tr).

(** lines 184-234.  The popped packet is a pair of bytes by the type of the
    broker oracle, so of the assertions only the one on the key can fail.
    The logged texts leave out the repr of the packet. *)
Definition polling_iter : M unit :=
  let timeout := Qfloor (WorkerConfig.redis_blocking_timeout (_config self)) in
  packet <- call (EvBrpop (Module.path (_module self)) timeout)
                 (fun tr => mq_brpop_bytes env tr (Module.path (_module self))
                                           timeout) ;;
  match packet with
  | None =>
    raise (Exn PollingTimeoutError "Blocking Right POP operation timeout")
  | Some (recv_key, recv_data) =>
    log INFO "Received packet" ;;
    if negb (bytes_eqb recv_key (encode_path env (Module.path (_module self))))
    then raise (Exn AssertionError EmptyString)
    else
      req <- match MsgRequest_decode env recv_data with
             | inr r => ret r
             | inl e =>
               log ERROR (str e) ;;
               raise (ExnFrom PacketLoadError "Packet decoding fail" e)
             end ;;
      if String.eqb (MsgRequest.msg_uuid req) EmptyString
      then raise (Exn NoMessageIdError "Message UUID does not exist")
      else
        (if (VERBOSE_LEVEL_1 env <=? WorkerConfig.verbose (_config self))%Z
         then log INFO ("Request[" ++ MsgRequest.msg_uuid req ++ "] "
                        ++ MsgRequest.content req)
         else log INFO ("Request[" ++ MsgRequest.msg_uuid req ++ "]")) ;;
        resp <- try_except (on_message req)
                  (fun e =>
                     log ERROR ("Msg(" ++ MsgRequest.msg_uuid req
                                ++ ") Request message upload failed: "
                                ++ str e) ;;
                     (if WorkerConfig.debug (_config self)
                      then log ERROR (str e) else ret tt) ;;
                     MsgResponse_new (MsgRequest.msg_uuid req) (str e)) ;;
        response_packet <- match MsgResponse_encode env resp with
                           | inr p => ret p
                           | inl e =>
                             log ERROR (str e) ;;
                             raise (Exn PacketDumpError
                                      "Response packet encoding fail")
                           end ;;
        let response_path := get_response_path env req in
        let expire :=
          Qfloor (WorkerConfig.redis_expire_medium (_config self)) in
        call_unit (EvLpush response_path response_packet expire)
                  (fun tr => mq_lpush_bytes env tr response_path
                                            response_packet expire)
  end.

(** lines 254-263.  [while True] never returns: after [fuel] iterations the
    loop is either still running or an exception has left it. *)
Inductive loop_result : Type :=
| Running
| Raised (e : exn).

Fixpoint start_polling (fuel : nat) (tr : trace) : loop_result * trace :=
  match fuel with
  | O => (Running, tr)
  | S fuel' =>
    match polling_iter tr with
    | (Ok _, tr') => start_polling fuel' tr'
    | (Raise e, tr') =>
      if isinstance env e NoMessageIdError then
        start_polling fuel' tr'
      else if isinstance env e CommandRuntimeError then
        start_polling fuel' (tr' ++ [EvLog ERROR (str e)])
      else if isinstance env e OsomApiError then
        start_polling fuel' (tr' ++ [EvLog DEBUG (str e)])
      else (Raised e, tr')
    end
  end.

End Runtime.


(** ** The three stages of one iteration

    [polling_iter] read as three consecutive blocks: receive and decode
    (lines 185-213), obtain a response (lines 215-222), encode and push it
    (lines 224-234).  [polling_iter_stages] below proves that the source
    function is their sequence. *)

Section Stages.

Variable env : Env.
Variable self : WorkerContext.t.

(** Lines 187-213: what the iteration does with the result of the pop. *)
Definition check_packet (packet : option (bytes * bytes))
    : M MsgRequest.t :=
  match packet with
  | None =>
    raise (Exn PollingTimeoutError "Blocking Right POP operation timeout")
  | Some (recv_key, recv_data) =>
    log INFO "Received packet" ;;
    if negb (bytes_eqb recv_key (encode_path env (Module.path (_module self))))
    then raise (Exn AssertionError EmptyString)
    else
      req <- match MsgRequest_decode env recv_data with
             | inr r => ret r
             | inl e =>
               log ERROR (str e) ;;
               raise (ExnFrom PacketLoadError "Packet decoding fail" e)
             end ;;
      if String.eqb (MsgRequest.msg_uuid req) EmptyString
      then raise (Exn NoMessageIdError "Message UUID does not exist")
      else
        (if (VERBOSE_LEVEL_1 env <=? WorkerConfig.verbose (_config self))%Z
         then log INFO ("Request[" ++ MsgRequest.msg_uuid req ++ "] "
                        ++ MsgRequest.content req)
         else log INFO ("Request[" ++ MsgRequest.msg_uuid req ++ "]")) ;;
        ret req
  end.

Definition recv_request : M MsgRequest.t :=
  let timeout := Qfloor (WorkerConfig.redis_blocking_timeout (_config self)) in
  packet <- call (EvBrpop (Module.path (_module self)) timeout)
                 (fun tr => mq_brpop_bytes env tr (Module.path (_module self))
                                           timeout) ;;
  check_packet packet.

(** What the [except BaseException] of lines 218-221 logs for a fault. *)
Definition fault_logs (req : MsgRequest.t) (e : exn) : list event :=
  EvLog ERROR ("Msg(" ++ MsgRequest.msg_uuid req
               ++ ") Request message upload failed: " ++ str e)
  :: (if WorkerConfig.debug (_config self) then [EvLog ERROR (str e)] else []).

(** The fallback of line 222, built when the trace is [tr]. *)
Definition fallback_response (req : MsgRequest.t) (e : exn) (tr : trace)
    : MsgResponse.t :=
  MsgResponse.make (MsgRequest.msg_uuid req) (MsgResponse_default_content env)
    (Some (str e)) (MsgResponse_default_files env)
    (MsgResponse_default_created_at env tr).

Definition respond (req : MsgRequest.t) : M MsgResponse.t :=
  try_except (on_message env req)
    (fun e =>
       log ERROR ("Msg(" ++ MsgRequest.msg_uuid req
                  ++ ") Request message upload failed: " ++ str e) ;;
       (if WorkerConfig.debug (_config self)
        then log ERROR (str e) else ret tt) ;;
       MsgResponse_new env (MsgRequest.msg_uuid req) (str e)).

Definition reply (req : MsgRequest.t) (resp : MsgResponse.t) : M unit :=
  response_packet <- match MsgResponse_encode env resp with
                     | inr p => ret p
                     | inl e =>
                       log ERROR (str e) ;;
                       raise (Exn PacketDumpError
                                "Response packet encoding fail")
                     end ;;
  let response_path := get_response_path env req in
  let expire := Qfloor (WorkerConfig.redis_expire_medium (_config self)) in
  call_unit (EvLpush response_path response_packet expire)
            (fun tr => mq_lpush_bytes env tr response_path response_packet
                                      expire).

(** What the except clauses of [start_polling] do with an exception that
    left the iteration: [Some logs] when a clause catches it (and logs
    [logs]), [None] when none does. *)
Definition start_polling_except (e : exn) : option (list event) :=
  if isinstance env e NoMessageIdError then Some []
  else if isinstance env e CommandRuntimeError then Some [EvLog ERROR (str e)]
  else if isinstance env e OsomApiError then Some [EvLog DEBUG (str e)]
  else None.

End Stages.

(** ** Observations on traces *)

(** The publications, the pushes and the error-level log lines of a trace. *)
Definition publications (tr : trace) : list (string * bytes) :=
  flat_map (fun ev => match ev with EvPublish k p => [(k, p)] | _ => [] end) tr.

Definition is_push (ev : event) : bool :=
  match ev with EvLpush _ _ _ => true | _ => false end.

(** A call to the database or to the object store. *)
Definition is_persist (ev : event) : bool :=
  match ev with
  | EvUploadData _ _ _ | EvInsertFile _ _ _ _ _ _ _ | EvInsertMsg2File _ _ _
  | EvInsertMsg _ _ _ _ _ _ _ _ | EvInsertReply _ _ _ _ => true
  | _ => false
  end.

Definition is_error_log (ev : event) : bool :=
  match ev with EvLog ERROR _ => true | _ => false end.

(** A record written for the response side of an exchange. *)
Definition is_reply_persist (ev : event) : bool :=
  match ev with
  | EvInsertReply _ _ _ _ | EvInsertMsg2File _ _ response => true
  | _ => false
  end.

(** The calls [upload_msg_file] makes for a file when nothing fails. *)
Definition file_events (msg_uuid : string) (flow : MsgFlow)
    (storage : MsgStorage) (file : MsgFile.t) : list event :=
  match MsgFile.content file with
  | None => []
  | Some content =>
    [ EvUploadData content (MsgFile.path file) (MsgFile.content_type file);
      EvLog INFO ("Successfully uploaded file to S3: '" ++ MsgFile.path file
                  ++ "'");
      EvInsertFile (MsgFile.file_uuid file) (MsgFile.provider file) storage
                   (MsgFile.name file) (MsgFile.content_type file)
                   (MsgFile.native_id file) (MsgFile.created_at file);
      EvLog INFO ("Successfully inserted file info to DB: '"
                  ++ MsgFile.file_uuid file ++ "' -> '" ++ MsgFile.path file
                  ++ "'");
      EvInsertMsg2File msg_uuid (MsgFile.file_uuid file) flow;
      EvLog INFO ("Successfully inserted msg2file info to DB: '" ++ msg_uuid
                  ++ "' -> " ++ MsgFile.file_uuid file) ]
  end.

Definition files_events (msg_uuid : string) (flow : MsgFlow)
    (storage : MsgStorage) (files : list MsgFile.t) : list event :=
  flat_map (file_events msg_uuid flow storage) files.

(** The calls [upload_msg_request] makes when nothing fails. *)
Definition request_events (message : MsgRequest.t) : list event :=
  EvInsertMsg (MsgRequest.msg_uuid message) (MsgRequest.provider message)
              (MsgRequest.message_id message) (MsgRequest.channel_id message)
              (MsgRequest.username message) (MsgRequest.nickname message)
              (MsgRequest.content message) (MsgRequest.created_at message)
  :: EvLog INFO ("Successfully inserted msg_request to DB: '"
                 ++ MsgRequest.msg_uuid message ++ "'")
  :: files_events (MsgRequest.msg_uuid message) request r2
                  (MsgRequest.files message).

(** The calls [upload_msg_response] makes when nothing fails. *)
Definition response_events (message : MsgResponse.t) : list event :=
  EvInsertReply (MsgResponse.msg_uuid message) (MsgResponse.content message)
                (MsgResponse.error message) (MsgResponse.created_at message)
  :: EvLog INFO ("Successfully inserted msg_response to DB: '"
                 ++ MsgResponse.msg_uuid message ++ "'")
  :: files_events (MsgResponse.msg_uuid message) response r2
                  (MsgResponse.files message).

(** The queue the worker pops, and the two durations as the broker gets
    them (lines 185-186 and 233). *)
Definition queue_path (self : WorkerContext.t) : string :=
  Module.path (_module self).

Definition pop_timeout (self : WorkerContext.t) : Z :=
  Qfloor (WorkerConfig.redis_blocking_timeout (_config self)).

Definition reply_expire (self : WorkerContext.t) : Z :=
  Qfloor (WorkerConfig.redis_expire_medium (_config self)).

(** An event is accounted for when it is no push and, if it is a record of
    the response side, it is one of the records of a response that the
    handler's run returned. *)
Definition accounted (env : Env) (ev : event) : Prop :=
  is_push ev = false /\
  (is_reply_persist ev = true ->
   exists req tr resp,
     module_run env tr req = inr resp /\ In ev (response_events resp)).

(** What one timed-out iteration appends when the loop catches
    PollingTimeoutError in its OsomApiError clause: the pop and the debug
    line of line 263. *)
Definition timeout_events (self : WorkerContext.t) : list event :=
  [ EvBrpop (queue_path self) (pop_timeout self);
    EvLog DEBUG "Blocking Right POP operation timeout" ].

(** The trace after [n] such iterations. *)
Fixpoint after_timeouts (self : WorkerContext.t) (n : nat) (tr : trace)
    : trace :=
  match n with
  | O => tr
  | S n' => after_timeouts self n' (tr ++ timeout_events self)
  end.

(** [emits P c tr]: run from [tr], the computation [c] only appends events,
    and every event it appends satisfies [P]. *)
Definition emits {A} (P : event -> Prop) (c : M A) (tr : trace) : Prop :=
  exists new, snd (c tr) = tr ++ new /\ Forall P new.


(** ** A concrete deployment, used to run the definitions *)

Module Demo.

Definition b (s : string) : bytes := list_byte_of_string s.

Definition echo_module : Module.t :=
  Module.make "echo" "1.0" "Echo worker" "/worker/echo" ["echo"].

(** blocking timeout 2.5 s, reply expiry 60.5 s *)
Definition config : WorkerConfig.t :=
  WorkerConfig.make "echo.py" false (5 # 2)%Q (121 # 2)%Q 0 false.

Definition a_file : MsgFile.t :=
  MsgFile.make "f1" "discord" "a.txt" "text/plain" "n1" (Some (b "hi"))
               "files/f1" "2024-01-01T00:00:00".

Definition refused_file : MsgFile.t :=
  MsgFile.make "f3" "discord" "c.txt" "text/plain" "n3" (Some (b "ho"))
               "files/f3" "2024-01-01T00:00:00".

Definition empty_file : MsgFile.t :=
  MsgFile.make "f2" "discord" "b.txt" "text/plain" "n2" None
               "files/f2" "2024-01-01T00:00:00".

(** The payload is the identifier; the payload "-" carries no identifier,
    the payload "m2" carries one file, the empty payload does not decode. *)
Definition decode (data : bytes) : exn + MsgRequest.t :=
  match data with
  | [] => inl (Exn (OtherError "ValueError") "empty packet")
  | _ =>
    let u := string_of_list_byte data in
    inr (MsgRequest.make (if String.eqb u "-" then EmptyString else u) "discord" "1"
           "c1" "user" "nick" "/echo hi"
           (if String.eqb u "m2" then [a_file] else [])
           "2024-01-01T00:00:00")
  end.

Definition encode (resp : MsgResponse.t) : bytes :=
  b (MsgResponse.msg_uuid resp ++ "|"
     ++ match MsgResponse.error resp with Some e => e | None => EmptyString end).

(** Every class context.py imports from osom_api.exceptions is declared
    as a child of OsomApiError. *)
Definition hierarchy (c d : exn_class) : bool :=
  match d, c with
  | OsomApiError, (CommandRuntimeError | InvalidMessageIdError
                  | NoMessageIdError | PacketDumpError | PacketLoadError
                  | PollingTimeoutError) => true
  | _, _ => false
  end.

Fixpoint count_pops (tr : trace) : nat :=
  match tr with
  | [] => 0
  | EvBrpop _ _ :: tr' => S (count_pops tr')
  | _ :: tr' => count_pops tr'
  end.

(** A deployment: [pops] is what the successive pops return, [run] is the
    command handler, [enc_fails] tells which responses do not encode and
    [upload_fails] which keys the object store refuses. *)
Definition mk_env (pops : list (option (bytes * bytes)))
    (run : MsgRequest.t -> exn + MsgResponse.t)
    (enc_fails : MsgResponse.t -> bool)
    (upload_fails : string -> bool) : Env :=
  {| encode_path := b;
     MQ_BROADCAST_PATH := "/osom/api/broadcast";
     MQ_REGISTER_WORKER_PATH := "/osom/api/register/worker";
     MQ_REGISTER_WORKER_REQUEST_PATH := "/osom/api/register/worker/request";
     VERBOSE_LEVEL_1 := 1;
     MsgWorker_encode := fun w =>
       b (MsgWorker.name w ++ "@" ++ MsgWorker.path w)%string;
     MsgRequest_decode := decode;
     MsgResponse_encode := fun resp =>
       if enc_fails resp
       then inl (Exn (OtherError "TypeError") "not serializable")
       else inr (encode resp);
     get_response_path := fun req =>
       ("/response/" ++ MsgRequest.msg_uuid req)%string;
     MsgResponse_default_content := None;
     MsgResponse_default_files := [];
     MsgResponse_default_created_at := fun _ => "2024-01-01T00:00:01";
     derives := hierarchy;
     mq_brpop_bytes := fun tr _ _ => inr (nth (count_pops tr) pops None);
     mq_lpush_bytes := fun _ _ _ _ => None;
     mq_publish := fun _ _ _ => None;
     s3_upload_data := fun _ _ key _ =>
       if upload_fails key
       then Some (Exn (OtherError "ClientError") "upload refused")
       else None;
     db_insert_file := fun _ _ _ => None;
     db_insert_msg2file := fun _ _ _ _ => None;
     db_insert_msg := fun _ _ => None;
     db_insert_reply := fun _ _ => None;
     module_run := fun _ req => run req |}.

Definition echo (req : MsgRequest.t) : exn + MsgResponse.t :=
  inr (MsgResponse.make (MsgRequest.msg_uuid req)
         (Some (MsgRequest.content req)) None [] "2024-01-01T00:00:01").

(** A handler that answers under an identifier of its own. *)
Definition wrong_uuid (req : MsgRequest.t) : exn + MsgResponse.t :=
  inr (MsgResponse.make "other" (Some (MsgRequest.content req)) None []
         "2024-01-01T00:00:01").


Definition never {A} (x : A) : bool := false.
Definition always {A} (x : A) : bool := true.

Definition packet (payload : string) : option (bytes * bytes) :=
  Some (b "/worker/echo", b payload).

Definition ctx (env : Env) : WorkerContext.t :=
  WorkerContext_init env config echo_module.

End Demo.


(** ** The lifecycle around the loop (context.py, lines 79-87, 174-182 and
    265-274)

    [main] opens the three connections and the module, runs the loop and, in
    its [finally], closes them.  Its history interleaves the lifecycle calls
    with the events of the runtime.  Whether a lifecycle call raises is
    decided by an oracle on the history so far. *)

Inductive lifecycle_call : Type :=
| MqOpen | DbOpen | S3Open | ModuleOpen
| ModuleClose | S3Close | DbClose | MqClose.

Inductive step : Type :=
| Life (c : lifecycle_call)
| Ev (ev : event).

Definition history := list step.

Definition events_of (h : history) : trace :=
  flat_map (fun s => match s with Ev ev => [ev] | Life _ => [] end) h.

Definition lifecycle_of (h : history) : list lifecycle_call :=
  flat_map (fun s => match s with Life c => [c] | Ev _ => [] end) h.

Definition is_close (c : lifecycle_call) : bool :=
  match c with
  | ModuleClose | S3Close | DbClose | MqClose => true
  | _ => false
  end.

Definition HM (A : Type) : Type := history -> result A * history.

Definition hbind {A B} (c : HM A) (k : A -> HM B) : HM B :=
  fun h =>
    match c h with
    | (Ok a, h') => k a h'
    | (Raise e, h') => (Raise e, h')
    end.

Definition hlog (level : log_level) (text : string) : HM unit :=
  fun h => (Ok tt, h ++ [Ev (EvLog level text)]).

Declare Scope life_scope.
Delimit Scope life_scope with life.
Notation "c ;; k" := (hbind c (fun _ => k))
  (at level 61, right associativity) : life_scope.

Section Lifecycle.

Variable env : Env.
Variable self : WorkerContext.t.
Variable lifecycle_fault : history -> lifecycle_call -> option exn.

Definition hcall (c : lifecycle_call) : HM unit :=
  fun h =>
    match lifecycle_fault h c with
    | Some e => (Raise e, h ++ [Life c])
    | None => (Ok tt, h ++ [Life c])
    end.

(** lines 79-82 *)
Definition open_common_context : HM unit :=
  (hcall MqOpen ;; hcall DbOpen ;; hcall S3Open)%life.

(** lines 84-87 *)
Definition close_common_context : HM unit :=
  (hcall S3Close ;; hcall DbClose ;; hcall MqClose)%life.

(** lines 174-177 *)
Definition open_module : HM unit :=
  (hlog DEBUG "Open modules ..." ;; hcall ModuleOpen ;;
   hlog INFO "Opened modules")%life.

(** lines 179-182 *)
Definition close_module : HM unit :=
  (hlog DEBUG "Close modules ..." ;; hcall ModuleClose ;;
   hlog INFO "Closed modules")%life.

(** The loop inside [main]: it runs on the events of the history and its
    new events are appended to the history. *)
Definition polling (fuel : nat) (h : history) : loop_result * history :=
  let (r, tr') := start_polling env self fuel (events_of h) in
  (r, h ++ map Ev (skipn (length (events_of h)) tr')).

(** lines 265-274.  While the loop runs, [main] is inside its [try]; when an
    exception leaves the loop the [finally] runs and the exception is raised
    again, unless the [finally] raises one itself.  The two opens are
    outside the [try]. *)
Definition main (fuel : nat) (h : history) : loop_result * history :=
  match (open_common_context ;; open_module)%life h with
  | (Raise e, h1) => (Raised e, h1)
  | (Ok _, h1) =>
    match polling fuel (h1 ++ [Ev (EvLog INFO "Start polling ...")]) with
    | (Running, h2) => (Running, h2)
    | (Raised e, h2) =>
      match (hlog INFO "Polling is done..." ;; close_module ;;
             close_common_context)%life h2 with
      | (Ok _, h3) => (Raised e, h3)
      | (Raise e', h3) => (Raised e', h3)
      end
    end
  end.

End Lifecycle.

(** ** WorkerConfig.from_namespace (apps/worker/config.py, lines 21-33)

    The attributes of the parsed namespace are Python values of any type;
    [PyOther] is a value of another type, with its truth value.  The checks
    common to all configurations ([assert_common_properties]) and the
    construction of the object from the namespace (the call of [cls] on
    [namespace_to_dict]) belong to osom_api.config, which is not under src/:
    they are parameters. *)

Inductive pyval : Type :=
| PyNone
| PyStr (s : string)
| PyBool (b : bool)
| PyInt (n : Z)
| PyOther (truth : bool).

Definition truthy (v : pyval) : bool :=
  match v with
  | PyNone => false
  | PyStr s => negb (String.eqb s EmptyString)
  | PyBool b => b
  | PyInt n => negb (n =? 0)%Z
  | PyOther t => t
  end.

Definition is_str (v : pyval) : bool :=
  match v with PyStr _ => true | _ => false end.

Definition is_bool (v : pyval) : bool :=
  match v with PyBool _ => true | _ => false end.

Module Namespace.
Record t : Type := make {
  request_path : pyval;
  module_path : pyval;
  isolate_module : pyval
}.
End Namespace.

Section FromNamespace.

Variable C : Type.
Variable assert_common_properties : Namespace.t -> option exn.
Variable cls : Namespace.t -> exn + C.

Definition from_namespace (args : Namespace.t) : result C :=
  if negb (truthy (Namespace.request_path args)) then
    Raise (Exn (OtherError "ValueError") "Missing request path")
  else if negb (truthy (Namespace.module_path args)) then
    Raise (Exn (OtherError "ValueError") "Missing module path")
  else if negb (is_str (Namespace.request_path args)) then
    Raise (Exn AssertionError EmptyString)
  else if negb (is_str (Namespace.module_path args)) then
    Raise (Exn AssertionError EmptyString)
  else if negb (is_bool (Namespace.isolate_module args)) then
    Raise (Exn AssertionError EmptyString)
  else
    match assert_common_properties args with
    | Some e => Raise e
    | None =>
      match cls args with
      | inl e => Raise e
      | inr c => Ok c
      end
    end.

End FromNamespace.

(** The exceptions [polling_iter] raises itself, by name. *)
Definition raised_by_iteration (e : exn) : Prop :=
  e = Exn PollingTimeoutError "Blocking Right POP operation timeout"
  \/ e = Exn AssertionError EmptyString
  \/ (exists e0, e = ExnFrom PacketLoadError "Packet decoding fail" e0)
  \/ e = Exn NoMessageIdError "Message UUID does not exist"
  \/ e = Exn PacketDumpError "Response packet encoding fail".

Definition has_content (file : MsgFile.t) : Prop :=
  MsgFile.content file <> None.


Definition is_pop (ev : event) : bool :=
  match ev with EvBrpop _ _ => true | _ => false end.

(** A call of the persistence refers to the files [files] of the message
    [msg_uuid] on the side [flow]: an upload stores the content of one of
    the files under its path, a metadata insert describes one of the files,
    a link ties one of the files to the message on that side. *)
Definition refers_to (msg_uuid : string) (flow : MsgFlow)
    (files : list MsgFile.t) (ev : event) : Prop :=
  match ev with
  | EvUploadData data key content_type =>
    exists file,
      In file files /\ MsgFile.content file = Some data
      /\ key = MsgFile.path file /\ content_type = MsgFile.content_type file
  | EvInsertFile file_uuid provider storage name content_type native_id
                 created_at =>
    exists file,
      In file files /\ file_uuid = MsgFile.file_uuid file
      /\ provider = MsgFile.provider file /\ storage = r2
      /\ name = MsgFile.name file
      /\ content_type = MsgFile.content_type file
      /\ native_id = MsgFile.native_id file
      /\ created_at = MsgFile.created_at file
  | EvInsertMsg2File u file_uuid fl =>
    u = msg_uuid /\ fl = flow
    /\ exists file, In file files /\ file_uuid = MsgFile.file_uuid file
  | EvInsertMsg u _ _ _ _ _ _ _ => u = msg_uuid /\ flow = request
  | EvInsertReply u _ _ _ => u = msg_uuid /\ flow = response
  | EvLog _ _ => True
  | _ => False
  end.


(** * Properties *)

Lemma bytes_eqb_eq (a b : bytes) : bytes_eqb a b = true <-> a = b.
Proof.
  revert b; induction a as [|x a IH]; intros [|y b]; simpl;
    try (split; [discriminate | congruence]); try tauto.
  rewrite andb_true_iff, IH. split.
  - intros [Hxy ->]. apply Byte.byte_dec_bl in Hxy. now subst.
  - intros Heq. injection Heq as -> ->. split; [apply Byte.byte_dec_lb|]; reflexivity.
Qed.

Lemma bytes_eqb_refl (a : bytes) : bytes_eqb a a = true.
Proof. now apply bytes_eqb_eq. Qed.

Lemma bytes_eqb_neq (a b : bytes) : a <> b -> bytes_eqb a b = false.
Proof.
  intros Hne. destruct (bytes_eqb a b) eqn:E; [|reflexivity].
  apply bytes_eqb_eq in E. contradiction.
Qed.

Lemma exn_class_eqb_refl (c : exn_class) : exn_class_eqb c c = true.
Proof. destruct c; simpl; auto using String.eqb_refl. Qed.

(** ** Running the monad *)

Lemma bind_ok {A B} (c : M A) (k : A -> M B) tr a tr' :
  c tr = (Ok a, tr') -> bind c k tr = k a tr'.
Proof. unfold bind. now intros ->. Qed.

Lemma bind_raise {A B} (c : M A) (k : A -> M B) tr e tr' :
  c tr = (Raise e, tr') -> bind c k tr = (Raise e, tr').
Proof. unfold bind. now intros ->. Qed.

Lemma call_unit_ok ev fault tr :
  fault tr = None -> call_unit ev fault tr = (Ok tt, tr ++ [ev]).
Proof. unfold call_unit, call. now intros ->. Qed.

Lemma call_unit_raise ev fault tr e :
  fault tr = Some e -> call_unit ev fault tr = (Raise e, tr ++ [ev]).
Proof. unfold call_unit, call. now intros ->. Qed.

Lemma bind_assoc {A B C} (c : M A) (k : A -> M B) (h : B -> M C) tr :
  bind (bind c k) h tr = bind c (fun a => bind (k a) h) tr.
Proof. unfold bind. destruct (c tr) as [[a|e] tr']; reflexivity. Qed.

(** ** Events appended by a computation *)

Section Emits.

Context {A B : Type} (P : event -> Prop).

Lemma emits_ret (a : A) tr : emits P (ret a) tr.
Proof. exists []. simpl. now rewrite app_nil_r. Qed.

Lemma emits_raise (e : exn) tr : emits P (@raise A e) tr.
Proof. exists []. simpl. now rewrite app_nil_r. Qed.

Lemma emits_log lvl text tr : P (EvLog lvl text) -> emits P (log lvl text) tr.
Proof. intros H. exists [EvLog lvl text]. simpl. auto. Qed.

Lemma emits_call ev (outcome : trace -> exn + A) tr :
  P ev -> emits P (call ev outcome) tr.
Proof.
  intros H. exists [ev]. unfold call.
  destruct (outcome tr); simpl; auto.
Qed.

Lemma emits_bind (c : M A) (k : A -> M B) tr :
  emits P c tr ->
  (forall a tr', c tr = (Ok a, tr') -> emits P (k a) tr') ->
  emits P (bind c k) tr.
Proof.
  intros (new & Hc & Hnew) Hk. unfold emits, bind.
  destruct (c tr) as [[a|e] tr'] eqn:E; simpl in Hc; subst tr'.
  - destruct (Hk a _ eq_refl) as (new' & Hk' & Hnew').
    exists (new ++ new'). cbn. rewrite Hk', app_assoc. split; [reflexivity|].
    apply Forall_app; auto.
  - exists new. auto.
Qed.

Lemma emits_try_except (c : M A) (h : exn -> M A) tr :
  emits P c tr ->
  (forall e tr', c tr = (Raise e, tr') -> emits P (h e) tr') ->
  emits P (try_except c h) tr.
Proof.
  intros (new & Hc & Hnew) Hh. unfold emits, try_except.
  destruct (c tr) as [[a|e] tr'] eqn:E; simpl in Hc; subst tr'.
  - exists new. auto.
  - destruct (Hh e _ eq_refl) as (new' & Hh' & Hnew').
    exists (new ++ new'). cbn. rewrite Hh', app_assoc. split; [reflexivity|].
    apply Forall_app; auto.
Qed.

End Emits.

Lemma emits_call_unit (P : event -> Prop) ev fault tr :
  P ev -> emits P (call_unit ev fault) tr.
Proof. intros H. unfold call_unit. now apply emits_call. Qed.

Lemma emits_weaken {A} (P Q : event -> Prop) (c : M A) tr :
  (forall ev, P ev -> Q ev) -> emits P c tr -> emits Q c tr.
Proof.
  intros HPQ (new & Hc & Hnew). exists new. split; [assumption|].
  eapply Forall_impl; eauto.
Qed.

(** ** Persistence *)

Section Persistence.

Variable env : Env.

Ltac run_calls :=
  unfold bind, call_unit, call, log, raise, ret;
  repeat match goal with
  | |- context [match ?f env ?t ?a ?b ?c with Some _ => _ | None => _ end] =>
    destruct (f env t a b c) eqn:?; cbn
  | |- context [match ?f env ?t ?a ?b with Some _ => _ | None => _ end] =>
    destruct (f env t a b) eqn:?; cbn
  | |- context [match ?f env ?t ?a with Some _ => _ | None => _ end] =>
    destruct (f env t a) eqn:?; cbn
  end.

Lemma upload_msg_file_prefix file msg_uuid flow storage tr :
  exists k,
    k <= length (file_events msg_uuid flow storage file) /\
    snd (upload_msg_file env file msg_uuid flow storage tr)
    = tr ++ firstn k (file_events msg_uuid flow storage file) /\
    (fst (upload_msg_file env file msg_uuid flow storage tr) = Ok tt ->
     k = length (file_events msg_uuid flow storage file)).
Proof.
  unfold upload_msg_file, file_events.
  destruct (MsgFile.content file) as [content|].
  - run_calls; rewrite <- ?app_assoc; cbn [app];
      [ exists 1 | exists 3 | exists 5 | exists 6 ];
      (split; [cbn; lia | split; [reflexivity | cbn; congruence]]).
  - exists 0. cbn. rewrite app_nil_r. repeat split; auto.
Qed.

Lemma upload_msg_files_prefix files msg_uuid flow storage tr :
  exists k,
    k <= length (files_events msg_uuid flow storage files) /\
    snd (upload_msg_files env files msg_uuid flow storage tr)
    = tr ++ firstn k (files_events msg_uuid flow storage files) /\
    (fst (upload_msg_files env files msg_uuid flow storage tr) = Ok tt ->
     k = length (files_events msg_uuid flow storage files)).
Proof.
  revert tr. induction files as [|file rest IH]; intros tr.
  - exists 0. cbn. rewrite app_nil_r. auto.
  - cbn [upload_msg_files files_events flat_map].
    fold (files_events msg_uuid flow storage rest).
    destruct (upload_msg_file_prefix file msg_uuid flow storage tr)
      as (k1 & Hk1 & Htr1 & Hok1).
    unfold bind.
    destruct (upload_msg_file env file msg_uuid flow storage tr)
      as [[[]|e] tr1] eqn:E; cbn [fst snd] in *.
    + specialize (Hok1 eq_refl). subst k1 tr1.
      rewrite firstn_all.
      destruct (IH (tr ++ file_events msg_uuid flow storage file))
        as (k2 & Hk2 & Htr2 & Hok2).
      exists (length (file_events msg_uuid flow storage file) + k2).
      rewrite length_app, firstn_app_2, Htr2, app_assoc.
      repeat split; [lia | intros H; rewrite (Hok2 H); reflexivity].
    + exists k1. rewrite length_app, firstn_app.
      replace (k1 - length (file_events msg_uuid flow storage file)) with 0
        by lia.
      cbn [firstn]. rewrite app_nil_r.
      repeat split; [lia | assumption | discriminate].
Qed.

Lemma upload_msg_files_app done rest msg_uuid flow storage tr tr1 :
  upload_msg_files env done msg_uuid flow storage tr = (Ok tt, tr1) ->
  upload_msg_files env (done ++ rest) msg_uuid flow storage tr
  = upload_msg_files env rest msg_uuid flow storage tr1.
Proof.
  revert tr. induction done as [|file done IH]; intros tr.
  - cbn. unfold ret. now intros [= ->].
  - cbn [upload_msg_files app]. unfold bind.
    destruct (upload_msg_file env file msg_uuid flow storage tr)
      as [[[]|e] tr']; [apply IH | discriminate].
Qed.

Lemma upload_msg_request_eq message tr :
  upload_msg_request env message tr
  = match db_insert_msg env tr message with
    | Some e => (Raise e, tr ++ firstn 1 (request_events message))
    | None =>
      upload_msg_files env (MsgRequest.files message)
        (MsgRequest.msg_uuid message) request r2
        (tr ++ firstn 2 (request_events message))
    end.
Proof.
  unfold upload_msg_request, request_events, bind, call_unit, call, log.
  destruct (db_insert_msg env tr message); [reflexivity|].
  cbn [firstn]. rewrite <- app_assoc. reflexivity.
Qed.

Lemma upload_msg_response_eq message tr :
  upload_msg_response env message tr
  = match db_insert_reply env tr message with
    | Some e => (Raise e, tr ++ firstn 1 (response_events message))
    | None =>
      upload_msg_files env (MsgResponse.files message)
        (MsgResponse.msg_uuid message) response r2
        (tr ++ firstn 2 (response_events message))
    end.
Proof.
  unfold upload_msg_response, response_events, bind, call_unit, call, log.
  destruct (db_insert_reply env tr message); [reflexivity|].
  cbn [firstn]. rewrite <- app_assoc. reflexivity.
Qed.

Lemma upload_msg_request_prefix message tr :
  exists k,
    1 <= k /\
    snd (upload_msg_request env message tr)
    = tr ++ firstn k (request_events message) /\
    (fst (upload_msg_request env message tr) = Ok tt ->
     snd (upload_msg_request env message tr) = tr ++ request_events message).
Proof.
  rewrite upload_msg_request_eq.
  destruct (db_insert_msg env tr message).
  - exists 1. split; [lia | split; [reflexivity | discriminate]].
  - match goal with |- context [upload_msg_files env ?fs ?u ?f ?s ?t] =>
      destruct (upload_msg_files_prefix fs u f s t) as (k & Hk & Htr & Hok);
      destruct (upload_msg_files env fs u f s t) as [r tr'] eqn:E
    end.
    cbn [fst snd] in *. subst tr'.
    exists (2 + k). unfold request_events.
    cbn [Nat.add firstn]. rewrite <- !app_assoc. cbn [app].
    split; [lia | split; [reflexivity |]].
    intros H. rewrite (Hok H), firstn_all. reflexivity.
Qed.

Lemma upload_msg_response_prefix message tr :
  exists k,
    1 <= k /\
    snd (upload_msg_response env message tr)
    = tr ++ firstn k (response_events message) /\
    (fst (upload_msg_response env message tr) = Ok tt ->
     snd (upload_msg_response env message tr) = tr ++ response_events message).
Proof.
  rewrite upload_msg_response_eq.
  destruct (db_insert_reply env tr message).
  - exists 1. split; [lia | split; [reflexivity | discriminate]].
  - match goal with |- context [upload_msg_files env ?fs ?u ?f ?s ?t] =>
      destruct (upload_msg_files_prefix fs u f s t) as (k & Hk & Htr & Hok);
      destruct (upload_msg_files env fs u f s t) as [r tr'] eqn:E
    end.
    cbn [fst snd] in *. subst tr'.
    exists (2 + k). unfold response_events.
    cbn [Nat.add firstn]. rewrite <- !app_assoc. cbn [app].
    split; [lia | split; [reflexivity |]].
    intros H. rewrite (Hok H), firstn_all. reflexivity.
Qed.

(** A refused upload: the file's metadata and link inserts are not called. *)
Lemma upload_msg_file_upload_fault file content msg_uuid flow storage tr e :
  MsgFile.content file = Some content ->
  s3_upload_data env tr content (MsgFile.path file)
                 (MsgFile.content_type file) = Some e ->
  upload_msg_file env file msg_uuid flow storage tr
  = (Raise e,
     tr ++ [EvUploadData content (MsgFile.path file)
                         (MsgFile.content_type file)]).
Proof.
  intros Hc Hup. unfold upload_msg_file. rewrite Hc.
  unfold bind at 1, call_unit, call. rewrite Hup. reflexivity.
Qed.

(** A refused metadata insert: the file's link insert is not called. *)
Lemma upload_msg_file_insert_fault file content msg_uuid flow storage tr e :
  MsgFile.content file = Some content ->
  s3_upload_data env tr content (MsgFile.path file)
                 (MsgFile.content_type file) = None ->
  db_insert_file env
    (tr ++ firstn 2 (file_events msg_uuid flow storage file)) file storage
  = Some e ->
  upload_msg_file env file msg_uuid flow storage tr
  = (Raise e, tr ++ firstn 3 (file_events msg_uuid flow storage file)).
Proof.
  unfold upload_msg_file, file_events. intros Hc Hup. rewrite Hc. cbn [firstn].
  intros Hins.
  unfold bind, call_unit, call, log. rewrite Hup.
  rewrite <- !app_assoc. cbn [app]. rewrite Hins.
  reflexivity.
Qed.

End Persistence.

(** C9: a file whose content is absent makes [upload_msg_file] raise
    BufferError before any call to the object store or to the database is
    made for it (the trace is left as it was); in a list of files the fault
    is raised when that file is reached, so the file is not skipped. *)
Theorem absent_content_is_fault env file msg_uuid flow storage tr :
  MsgFile.content file = None ->
  upload_msg_file env file msg_uuid flow storage tr
  = (Raise (Exn BufferError "Empty file content"), tr)
  /\ forall rest,
       upload_msg_files env (file :: rest) msg_uuid flow storage tr
       = (Raise (Exn BufferError "Empty file content"), tr).
Proof.
  intros Hc.
  assert (H : upload_msg_file env file msg_uuid flow storage tr
              = (Raise (Exn BufferError "Empty file content"), tr)).
  { unfold upload_msg_file. rewrite Hc. reflexivity. }
  split; [exact H|].
  intros rest. cbn [upload_msg_files]. now apply bind_raise.
Qed.

Lemma absent_content_is_fault_witness :
  MsgFile.content Demo.empty_file = None
  /\ upload_msg_file (Demo.mk_env [] Demo.echo Demo.never Demo.never)
       Demo.empty_file "m1" request r2 []
     = (Raise (Exn BufferError "Empty file content"), []).
Proof.
  split; [reflexivity|].
  apply (absent_content_is_fault
           (Demo.mk_env [] Demo.echo Demo.never Demo.never)
           Demo.empty_file "m1" request r2 []).
  reflexivity.
Defined.

(** C5: persisting a request (a response) calls the message (reply) insert
    first and then, file by file in order, the object upload, the metadata
    insert and the link insert: whatever fails, the calls made are an initial
    segment of [request_events] ([response_events]), and all of it when the
    persistence returns.  An upload that fails ends the persistence with the
    upload as the last call, and a metadata insert that fails ends it before
    the link insert. *)
Theorem persistence_order env :
  (forall message tr,
     exists k,
       1 <= k /\
       snd (upload_msg_request env message tr)
       = tr ++ firstn k (request_events message) /\
       (fst (upload_msg_request env message tr) = Ok tt ->
        snd (upload_msg_request env message tr)
        = tr ++ request_events message))
  /\ (forall message tr,
        exists k,
          1 <= k /\
          snd (upload_msg_response env message tr)
          = tr ++ firstn k (response_events message) /\
          (fst (upload_msg_response env message tr) = Ok tt ->
           snd (upload_msg_response env message tr)
           = tr ++ response_events message))
  /\ (forall done file rest content msg_uuid flow storage tr tr1 e,
        upload_msg_files env done msg_uuid flow storage tr = (Ok tt, tr1) ->
        MsgFile.content file = Some content ->
        s3_upload_data env tr1 content (MsgFile.path file)
                       (MsgFile.content_type file) = Some e ->
        upload_msg_files env (done ++ file :: rest) msg_uuid flow storage tr
        = (Raise e,
           tr1 ++ [EvUploadData content (MsgFile.path file)
                                (MsgFile.content_type file)]))
  /\ (forall done file rest content msg_uuid flow storage tr tr1 e,
        upload_msg_files env done msg_uuid flow storage tr = (Ok tt, tr1) ->
        MsgFile.content file = Some content ->
        s3_upload_data env tr1 content (MsgFile.path file)
                       (MsgFile.content_type file) = None ->
        db_insert_file env
          (tr1 ++ firstn 2 (file_events msg_uuid flow storage file))
          file storage = Some e ->
        upload_msg_files env (done ++ file :: rest) msg_uuid flow storage tr
        = (Raise e, tr1 ++ firstn 3 (file_events msg_uuid flow storage file))).
Proof.
  split; [exact (upload_msg_request_prefix env)|].
  split; [exact (upload_msg_response_prefix env)|].
  split.
  - intros done file rest content msg_uuid flow storage tr tr1 e Hdone Hc Hup.
    rewrite (upload_msg_files_app env _ _ _ _ _ _ _ Hdone).
    cbn [upload_msg_files]. apply bind_raise.
    now apply upload_msg_file_upload_fault.
  - intros done file rest content msg_uuid flow storage tr tr1 e Hdone Hc Hup
           Hins.
    rewrite (upload_msg_files_app env _ _ _ _ _ _ _ Hdone).
    cbn [upload_msg_files]. apply bind_raise.
    now apply upload_msg_file_insert_fault with (content := content).
Qed.

Lemma persistence_order_witness :
  upload_msg_files
    (Demo.mk_env [] Demo.echo Demo.never (String.eqb "files/f3"))
    [Demo.a_file; Demo.refused_file; Demo.a_file] "m2" request r2 []
  = (Raise (Exn (OtherError "ClientError") "upload refused"),
     file_events "m2" request r2 Demo.a_file
     ++ [EvUploadData (Demo.b "ho") "files/f3" "text/plain"]).
Proof.
  apply (proj1 (proj2 (proj2 (persistence_order
           (Demo.mk_env [] Demo.echo Demo.never (String.eqb "files/f3")))))
         [Demo.a_file] Demo.refused_file [Demo.a_file] (Demo.b "ho") "m2"
         request r2 [] (file_events "m2" request r2 Demo.a_file)
         (Exn (OtherError "ClientError") "upload refused"));
    reflexivity.
Defined.

(** ** Registration *)

Lemma publications_app tr new :
  publications (tr ++ new) = publications tr ++ publications new.
Proof. apply flat_map_app. Qed.

Lemma publish_register_worker_publications env self tr :
  publications (snd (publish_register_worker env self tr))
  = publications tr ++ [(MQ_REGISTER_WORKER_PATH env, _register_packet self)].
Proof.
  unfold publish_register_worker, bind, call_unit, call, log.
  destruct (mq_publish env tr _ _); cbn [snd].
  - now rewrite publications_app.
  - now rewrite !publications_app, app_nil_r.
Qed.

(** C6: a message on the registration-request channel, whatever its
    payload, makes [on_mq_subscribe] publish once, on the registration
    channel, the packet [_register_packet] that [on_mq_connect] publishes at
    startup; a message on another channel makes it publish nothing. *)
Theorem reregistration env self channel data tr tr0 :
  (channel = _register_request_path self ->
   publications (snd (on_mq_subscribe env self channel data tr))
   = publications tr
     ++ [(MQ_REGISTER_WORKER_PATH env, _register_packet self)])
  /\ (channel <> _register_request_path self ->
      publications (snd (on_mq_subscribe env self channel data tr))
      = publications tr)
  /\ publications (snd (on_mq_connect env self tr0))
     = publications tr0
       ++ [(MQ_REGISTER_WORKER_PATH env, _register_packet self)].
Proof.
  split; [|split].
  - intros ->. unfold on_mq_subscribe, bind at 1, log.
    rewrite bytes_eqb_refl, publish_register_worker_publications.
    now rewrite publications_app, app_nil_r.
  - intros Hne. unfold on_mq_subscribe, bind at 1, log.
    rewrite bytes_eqb_neq by congruence. cbn [ret snd].
    now rewrite publications_app, app_nil_r.
  - unfold on_mq_connect, bind at 1, log.
    rewrite publish_register_worker_publications.
    now rewrite publications_app, app_nil_r.
Qed.

Lemma reregistration_witness :
  let env := Demo.mk_env [] Demo.echo Demo.never Demo.never in
  publications
    (snd (on_mq_subscribe env (Demo.ctx env)
            (Demo.b "/osom/api/register/worker/request") (Demo.b "any") []))
  = [("/osom/api/register/worker", Demo.b "echo@/worker/echo")]
  /\ publications
       (snd (on_mq_subscribe env (Demo.ctx env)
               (Demo.b "/osom/api/broadcast") (Demo.b "any") []))
     = [].
Proof.
  intros env. split.
  - apply (proj1 (reregistration env (Demo.ctx env)
                    (Demo.b "/osom/api/register/worker/request")
                    (Demo.b "any") [] [])).
    reflexivity.
  - apply (proj1 (proj2 (reregistration env (Demo.ctx env)
                    (Demo.b "/osom/api/broadcast") (Demo.b "any") [] []))).
    discriminate.
Defined.

(** ** One iteration, stage by stage *)

Ltac case_inner :=
  match goal with
  | |- context [match ?x with _ => _ end] =>
    lazymatch x with
    | context [match _ with _ => _ end] => fail
    | _ => destruct x eqn:?
    end
  end.

Lemma polling_iter_stages env self tr :
  polling_iter env self tr
  = (req <- recv_request env self ;;
     resp <- respond env self req ;;
     reply env self req resp) tr.
Proof.
  unfold polling_iter, recv_request, check_packet, respond, reply.
  unfold bind, call, call_unit, log, raise, ret, try_except.
  repeat case_inner; try reflexivity; try congruence.
Qed.

Section Iteration.

Variable env : Env.
Variable self : WorkerContext.t.

Lemma polling_iter_recv_raise tr e tr' :
  recv_request env self tr = (Raise e, tr') ->
  polling_iter env self tr = (Raise e, tr').
Proof. intros H. rewrite polling_iter_stages. now apply bind_raise. Qed.

Lemma polling_iter_recv_ok tr req tr1 resp tr2 :
  recv_request env self tr = (Ok req, tr1) ->
  respond env self req tr1 = (Ok resp, tr2) ->
  polling_iter env self tr = reply env self req resp tr2.
Proof.
  intros H1 H2. rewrite polling_iter_stages.
  rewrite (bind_ok _ _ _ _ _ H1). now rewrite (bind_ok _ _ _ _ _ H2).
Qed.

Lemma recv_request_timeout tr :
  mq_brpop_bytes env tr (queue_path self) (pop_timeout self) = inr None ->
  recv_request env self tr
  = (Raise (Exn PollingTimeoutError "Blocking Right POP operation timeout"),
     tr ++ [EvBrpop (queue_path self) (pop_timeout self)]).
Proof.
  intros H. unfold recv_request, check_packet, bind, call.
  fold (queue_path self) (pop_timeout self). rewrite H. reflexivity.
Qed.

Lemma recv_request_no_uuid tr data req :
  mq_brpop_bytes env tr (queue_path self) (pop_timeout self)
  = inr (Some (encode_path env (queue_path self), data)) ->
  MsgRequest_decode env data = inr req ->
  MsgRequest.msg_uuid req = EmptyString ->
  recv_request env self tr
  = (Raise (Exn NoMessageIdError "Message UUID does not exist"),
     tr ++ [EvBrpop (queue_path self) (pop_timeout self); EvLog INFO "Received packet"]).
Proof.
  intros Hpop Hdec Hid.
  unfold recv_request, check_packet, bind, call, log, raise, ret.
  fold (queue_path self) (pop_timeout self). rewrite Hpop, bytes_eqb_refl. cbn [negb].
  rewrite Hdec, Hid. cbn [String.eqb]. now rewrite <- app_assoc.
Qed.

Lemma recv_request_has_uuid tr req tr1 :
  recv_request env self tr = (Ok req, tr1) ->
  MsgRequest.msg_uuid req <> EmptyString.
Proof.
  unfold recv_request, check_packet, bind, call, log, raise, ret.
  repeat case_inner; try discriminate.
  all: intros H; injection H as <- _; now apply String.eqb_neq.
Qed.

Lemma check_packet_emits packet tr :
  emits (fun ev => is_push ev = false /\ is_persist ev = false)
        (check_packet env self packet) tr.
Proof.
  unfold check_packet.
  destruct packet as [[key data]|]; [|apply emits_raise].
  apply emits_bind; [apply emits_log; now split|]. intros _ tr1 _.
  destruct (negb _); [apply emits_raise|].
  apply emits_bind.
  - destruct (MsgRequest_decode env data); [|apply emits_ret].
    apply emits_bind; [apply emits_log; now split|]. intros; apply emits_raise.
  - intros req tr2 _. destruct (String.eqb _ _); [apply emits_raise|].
    apply emits_bind; [|intros; apply emits_ret].
    destruct (_ <=? _)%Z; apply emits_log; now split.
Qed.

Lemma recv_request_emits tr :
  emits (fun ev => is_push ev = false /\ is_persist ev = false)
        (recv_request env self) tr.
Proof.
  unfold recv_request.
  apply emits_bind; [apply emits_call; now split|].
  intros; apply check_packet_emits.
Qed.

Lemma respond_ok tr req resp tr' :
  on_message env req tr = (Ok resp, tr') ->
  respond env self req tr = (Ok resp, tr').
Proof. intros H. unfold respond, try_except. now rewrite H. Qed.

Lemma respond_fallback tr req e tr' :
  on_message env req tr = (Raise e, tr') ->
  respond env self req tr
  = (Ok (fallback_response env req e (tr' ++ fault_logs self req e)),
     tr' ++ fault_logs self req e).
Proof.
  intros H. unfold respond, try_except. rewrite H.
  unfold fault_logs, fallback_response, bind, log, ret, MsgResponse_new.
  destruct (WorkerConfig.debug (_config self)); [|reflexivity].
  now rewrite <- app_assoc.
Qed.

Lemma respond_returns tr req :
  exists resp tr', respond env self req tr = (Ok resp, tr').
Proof.
  destruct (on_message env req tr) as [[resp|e] tr'] eqn:E.
  - exists resp, tr'. now apply respond_ok.
  - rewrite (respond_fallback _ _ _ _ E). eauto.
Qed.

Lemma reply_encode_fault tr req resp e :
  MsgResponse_encode env resp = inl e ->
  reply env self req resp tr
  = (Raise (Exn PacketDumpError "Response packet encoding fail"),
     tr ++ [EvLog ERROR (str e)]).
Proof. intros H. unfold reply, bind, log, raise. now rewrite H. Qed.

Lemma reply_push tr req resp pkt :
  MsgResponse_encode env resp = inr pkt ->
  mq_lpush_bytes env tr (get_response_path env req) pkt (reply_expire self) = None ->
  reply env self req resp tr
  = (Ok tt, tr ++ [EvLpush (get_response_path env req) pkt (reply_expire self)]).
Proof.
  intros Henc Hpush. unfold reply, bind at 1, ret. rewrite Henc.
  now apply call_unit_ok.
Qed.

Lemma on_message_persist_fault tr req e tr' :
  upload_msg_request env req tr = (Raise e, tr') ->
  on_message env req tr = (Raise e, tr').
Proof. intros H. unfold on_message. now apply bind_raise. Qed.

Lemma on_message_run_fault tr req tr' e :
  upload_msg_request env req tr = (Ok tt, tr') ->
  module_run env tr' req = inl e ->
  on_message env req tr
  = (Raise (ExnFrom CommandRuntimeError
              "A command runtime error was detected" e),
     tr' ++ [EvRun req]).
Proof.
  intros Hup Hrun. unfold on_message. rewrite (bind_ok _ _ _ _ _ Hup).
  unfold bind, try_except, call, raise. now rewrite Hrun.
Qed.

Lemma on_message_run_ok tr req tr' resp :
  upload_msg_request env req tr = (Ok tt, tr') ->
  module_run env tr' req = inr resp ->
  on_message env req tr
  = (upload_msg_response env resp ;;
     if negb (String.eqb (MsgResponse.msg_uuid resp) (MsgRequest.msg_uuid req))
     then raise (Exn InvalidMessageIdError
                   ("The UUID in the request message and "
                    ++ "the UUID in the response message must be the same"))
     else ret resp) (tr' ++ [EvRun req]).
Proof.
  intros Hup Hrun. unfold on_message. rewrite (bind_ok _ _ _ _ _ Hup).
  unfold bind at 1, try_except, call. now rewrite Hrun.
Qed.


Lemma start_polling_ok n tr tr' :
  polling_iter env self tr = (Ok tt, tr') ->
  start_polling env self (S n) tr = start_polling env self n tr'.
Proof. intros H. cbn [start_polling]. now rewrite H. Qed.

Lemma start_polling_raise n tr e tr' :
  polling_iter env self tr = (Raise e, tr') ->
  start_polling env self (S n) tr
  = match start_polling_except env e with
    | Some logs => start_polling env self n (tr' ++ logs)
    | None => (Raised e, tr')
    end.
Proof.
  intros H. cbn [start_polling]. rewrite H. unfold start_polling_except.
  destruct (isinstance env e NoMessageIdError);
    [now rewrite app_nil_r|].
  destruct (isinstance env e CommandRuntimeError); [reflexivity|].
  destruct (isinstance env e OsomApiError); reflexivity.
Qed.

End Iteration.

(** ** What an iteration appends to the trace *)

Lemma Forall_firstn {A} (P : A -> Prop) k (l : list A) :
  Forall P l -> Forall P (firstn k l).
Proof.
  intros H. rewrite <- (firstn_skipn k l) in H.
  now apply Forall_app in H.
Qed.

Lemma emits_prefix {A} (P : event -> Prop) (c : M A) tr k l :
  snd (c tr) = tr ++ firstn k l -> Forall P l -> emits P c tr.
Proof. intros Hc Hl. exists (firstn k l). auto using Forall_firstn. Qed.

Lemma emits_filter {A} (f : event -> bool) (c : M A) tr :
  emits (fun ev => f ev = false) c tr ->
  filter f (snd (c tr)) = filter f tr.
Proof.
  intros (new & -> & Hnew). rewrite filter_app.
  replace (filter f new) with (@nil event); [apply app_nil_r|].
  induction Hnew as [|ev new Hev _ IH]; cbn; [reflexivity|].
  now rewrite Hev.
Qed.

Lemma Forall_In_self {A} (l : list A) : Forall (fun x => In x l) l.
Proof. now apply Forall_forall. Qed.

Section IterationEvents.

Variable env : Env.
Variable self : WorkerContext.t.

Lemma files_events_request msg_uuid storage files :
  Forall (fun ev => is_push ev = false /\ is_reply_persist ev = false)
         (files_events msg_uuid request storage files).
Proof.
  induction files as [|file rest IH]; cbn; [constructor|].
  apply Forall_app. split; [|exact IH].
  unfold file_events. destruct (MsgFile.content file); repeat constructor.
Qed.

Lemma files_events_no_push msg_uuid flow storage files :
  Forall (fun ev => is_push ev = false)
         (files_events msg_uuid flow storage files).
Proof.
  induction files as [|file rest IH]; cbn; [constructor|].
  apply Forall_app. split; [|exact IH].
  unfold file_events. destruct (MsgFile.content file); repeat constructor.
Qed.

Lemma request_events_spec message :
  Forall (fun ev => is_push ev = false /\ is_reply_persist ev = false)
         (request_events message).
Proof.
  unfold request_events. repeat constructor. apply files_events_request.
Qed.

Lemma response_events_no_push message :
  Forall (fun ev => is_push ev = false) (response_events message).
Proof.
  unfold response_events. repeat constructor. apply files_events_no_push.
Qed.

Lemma upload_msg_request_emits message tr :
  emits (fun ev => is_push ev = false /\ is_reply_persist ev = false)
        (upload_msg_request env message) tr.
Proof.
  destruct (upload_msg_request_prefix env message tr) as (k & _ & Hk & _).
  eapply emits_prefix; [exact Hk | apply request_events_spec].
Qed.

Lemma upload_msg_response_emits message tr :
  emits (fun ev => is_push ev = false /\ In ev (response_events message))
        (upload_msg_response env message) tr.
Proof.
  destruct (upload_msg_response_prefix env message tr) as (k & _ & Hk & _).
  eapply emits_prefix; [exact Hk|].
  apply Forall_and; [apply response_events_no_push | apply Forall_In_self].
Qed.

Lemma accounted_plain ev :
  is_push ev = false -> is_reply_persist ev = false -> accounted env ev.
Proof. intros H1 H2. split; [assumption|]. congruence. Qed.

Lemma on_message_emits req tr : emits (accounted env) (on_message env req) tr.
Proof.
  unfold on_message.
  apply emits_bind.
  { eapply emits_weaken; [|apply upload_msg_request_emits].
    intros ev [H1 H2]. now apply accounted_plain. }
  intros _ tr1 _. apply emits_bind.
  { apply emits_try_except; [apply emits_call; now apply accounted_plain|].
    intros; apply emits_raise. }
  intros resp tr2 Hrun. apply emits_bind.
  { eapply emits_weaken; [|apply upload_msg_response_emits].
    intros ev [H1 H2]. split; [assumption|]. intros _.
    unfold try_except, call in Hrun.
    destruct (module_run env tr1 req) as [e|resp'] eqn:E; [discriminate|].
    injection Hrun as -> _. eauto. }
  intros _ tr3 _. destruct (negb _); [apply emits_raise | apply emits_ret].
Qed.

Lemma respond_emits req tr : emits (accounted env) (respond env self req) tr.
Proof.
  unfold respond. apply emits_try_except; [apply on_message_emits|].
  intros e tr' _.
  apply emits_bind; [apply emits_log; now apply accounted_plain|].
  intros _ tr1 _. apply emits_bind.
  - destruct (WorkerConfig.debug _);
      [apply emits_log; now apply accounted_plain | apply emits_ret].
  - intros _ tr2 _. exists []. unfold MsgResponse_new. cbn.
    now rewrite app_nil_r.
Qed.

Lemma reply_push_trace tr req resp pkt :
  MsgResponse_encode env resp = inr pkt ->
  snd (reply env self req resp tr)
  = tr ++ [EvLpush (get_response_path env req) pkt (reply_expire self)].
Proof.
  intros H. unfold reply, bind at 1, ret. rewrite H.
  unfold call_unit, call. now destruct (mq_lpush_bytes _ _ _ _ _).
Qed.

End IterationEvents.

(** ** The handler's fault and the correlation check *)






(** ** Encoding *)

(** C3: when the response of an iteration does not encode, the iteration
    raises PacketDumpError, and between its start and its end nothing was
    pushed. *)
Theorem encode_fault_is_raised env self tr req tr1 resp tr2 e :
  recv_request env self tr = (Ok req, tr1) ->
  respond env self req tr1 = (Ok resp, tr2) ->
  MsgResponse_encode env resp = inl e ->
  polling_iter env self tr
  = (Raise (Exn PacketDumpError "Response packet encoding fail"),
     tr2 ++ [EvLog ERROR (str e)])
  /\ filter is_push (snd (polling_iter env self tr)) = filter is_push tr.
Proof.
  intros Hrecv Hrespond Henc.
  assert (Hiter : polling_iter env self tr
                  = (Raise (Exn PacketDumpError "Response packet encoding fail"),
                     tr2 ++ [EvLog ERROR (str e)])).
  { rewrite (polling_iter_recv_ok env self _ _ _ _ _ Hrecv Hrespond).
    now apply reply_encode_fault. }
  split; [exact Hiter|].
  rewrite Hiter. cbn [snd]. rewrite filter_app. cbn [filter is_push].
  rewrite app_nil_r.
  replace tr2 with (snd (respond env self req tr1)) by now rewrite Hrespond.
  rewrite emits_filter.
  - replace tr1 with (snd (recv_request env self tr)) by now rewrite Hrecv.
    apply emits_filter.
    eapply emits_weaken; [|apply recv_request_emits]. now intros ev [H _].
  - eapply emits_weaken; [|apply respond_emits]. now intros ev [H _].
Qed.

Lemma encode_fault_is_raised_witness :
  let env := Demo.mk_env [Demo.packet "m1"] Demo.echo Demo.always Demo.never in
  fst (polling_iter env (Demo.ctx env) [])
  = Raise (Exn PacketDumpError "Response packet encoding fail")
  /\ filter is_push (snd (polling_iter env (Demo.ctx env) [])) = [].
Proof.
  intros env.
  pose proof
    (encode_fault_is_raised env (Demo.ctx env) []
       (MsgRequest.make "m1" "discord" "1" "c1" "user" "nick" "/echo hi" []
                        "2024-01-01T00:00:00")
       [ EvBrpop "/worker/echo" 2; EvLog INFO "Received packet";
         EvLog INFO "Request[m1]" ]
       (MsgResponse.make "m1" (Some "/echo hi") None [] "2024-01-01T00:00:01")
       [ EvBrpop "/worker/echo" 2; EvLog INFO "Received packet";
         EvLog INFO "Request[m1]";
         EvInsertMsg "m1" "discord" "1" "c1" "user" "nick" "/echo hi"
                     "2024-01-01T00:00:00";
         EvLog INFO "Successfully inserted msg_request to DB: 'm1'";
         EvRun (MsgRequest.make "m1" "discord" "1" "c1" "user" "nick"
                                "/echo hi" [] "2024-01-01T00:00:00");
         EvInsertReply "m1" (Some "/echo hi") None "2024-01-01T00:00:01";
         EvLog INFO "Successfully inserted msg_response to DB: 'm1'" ]
       (Exn (OtherError "TypeError") "not serializable")
       eq_refl eq_refl eq_refl) as [H1 H2].
  split; [now rewrite H1 | exact H2].
Defined.

(** ** The loop *)

(** C4: an exception that leaves an iteration and is an instance of none of
    the classes the loop catches (NoMessageIdError, CommandRuntimeError,
    OsomApiError) leaves [start_polling]: the loop ends with it, whatever
    the number of iterations it was given. *)
Theorem unclassified_fault_ends_loop env self tr e tr' n :
  polling_iter env self tr = (Raise e, tr') ->
  isinstance env e NoMessageIdError = false ->
  isinstance env e CommandRuntimeError = false ->
  isinstance env e OsomApiError = false ->
  start_polling env self (S n) tr = (Raised e, tr').
Proof.
  intros Hiter H1 H2 H3. cbn [start_polling].
  now rewrite Hiter, H1, H2, H3.
Qed.

(** A packet popped under another key than the queue's fails the assertion
    of line 198; AssertionError ends the loop. *)
Lemma unclassified_fault_ends_loop_witness :
  let env :=
    Demo.mk_env [Some (Demo.b "/worker/other", Demo.b "m1")] Demo.echo
                Demo.never Demo.never in
  start_polling env (Demo.ctx env) 5 []
  = (Raised (Exn AssertionError EmptyString),
     [EvBrpop "/worker/echo" 2; EvLog INFO "Received packet"]).
Proof.
  intros env.
  apply (unclassified_fault_ends_loop env (Demo.ctx env) []
           (Exn AssertionError EmptyString)
           [EvBrpop "/worker/echo" 2; EvLog INFO "Received packet"] 4);
    reflexivity.
Defined.

(** C7: when the popped packet decodes to a request without identifier, the
    iteration raises NoMessageIdError after two calls only, the pop and an
    info line: nothing is pushed, nothing is persisted, no error line is
    logged; the loop catches the exception without logging and goes on with
    the next iteration. *)
Theorem no_correlation_key_dropped env self tr data req :
  mq_brpop_bytes env tr (queue_path self) (pop_timeout self)
  = inr (Some (encode_path env (queue_path self), data)) ->
  MsgRequest_decode env data = inr req ->
  MsgRequest.msg_uuid req = EmptyString ->
  let new :=
    [EvBrpop (queue_path self) (pop_timeout self);
     EvLog INFO "Received packet"] in
  polling_iter env self tr
  = (Raise (Exn NoMessageIdError "Message UUID does not exist"), tr ++ new)
  /\ Forall (fun ev => is_push ev = false /\ is_persist ev = false
                       /\ is_error_log ev = false) new
  /\ forall n,
       start_polling env self (S n) tr = start_polling env self n (tr ++ new).
Proof.
  intros Hpop Hdec Hid new.
  assert (Hiter : polling_iter env self tr
                  = (Raise (Exn NoMessageIdError "Message UUID does not exist"),
                     tr ++ new)).
  { apply polling_iter_recv_raise. now apply recv_request_no_uuid with data req. }
  split; [exact Hiter|]. split; [repeat constructor|].
  intros n. cbn [start_polling]. rewrite Hiter.
  unfold isinstance. cbn [exn_cls exn_class_eqb orb]. reflexivity.
Qed.

Lemma no_correlation_key_dropped_witness :
  let env :=
    Demo.mk_env [Demo.packet "-"; Demo.packet "m1"] Demo.echo Demo.never
                Demo.never in
  start_polling env (Demo.ctx env) 1 []
  = (Running, [EvBrpop "/worker/echo" 2; EvLog INFO "Received packet"]).
Proof.
  intros env.
  refine (proj2 (proj2
    (no_correlation_key_dropped env (Demo.ctx env) [] (Demo.b "-")
       (MsgRequest.make EmptyString "discord" "1" "c1" "user" "nick" "/echo hi" []
                        "2024-01-01T00:00:00")
       _ _ _)) 0); reflexivity.
Defined.

Lemma polling_iter_timeout env self tr :
  mq_brpop_bytes env tr (queue_path self) (pop_timeout self) = inr None ->
  polling_iter env self tr
  = (Raise (Exn PollingTimeoutError "Blocking Right POP operation timeout"),
     tr ++ [EvBrpop (queue_path self) (pop_timeout self)]).
Proof.
  intros H. apply polling_iter_recv_raise. now apply recv_request_timeout.
Qed.

Lemma reply_emits env self req resp tr :
  emits (fun ev => is_reply_persist ev = false) (reply env self req resp) tr.
Proof.
  unfold reply. apply emits_bind.
  - destruct (MsgResponse_encode env resp); [|apply emits_ret].
    apply emits_bind; [now apply emits_log|]. intros; apply emits_raise.
  - intros pkt tr' _. now apply emits_call_unit.
Qed.

Lemma is_persist_reply ev : is_persist ev = false -> is_reply_persist ev = false.
Proof. destruct ev; cbn; congruence. Qed.

Lemma polling_iter_pops_first env self tr :
  exists rest,
    snd (polling_iter env self tr)
    = tr ++ EvBrpop (queue_path self) (pop_timeout self) :: rest.
Proof.
  rewrite polling_iter_stages. unfold recv_request. rewrite bind_assoc.
  fold (queue_path self) (pop_timeout self).
  unfold bind at 1, call.
  destruct (mq_brpop_bytes env tr (queue_path self) (pop_timeout self))
    as [e|packet]; [now exists []|].
  match goal with |- context [snd (?c (tr ++ [?ev]))] =>
    assert (Hc : emits (fun _ => True) c (tr ++ [ev]))
  end.
  { apply emits_bind.
    - eapply emits_weaken; [|apply check_packet_emits]. auto.
    - intros req tr1 _. apply emits_bind.
      + eapply emits_weaken; [|apply respond_emits]. auto.
      + intros resp tr2 _. eapply emits_weaken; [|apply reply_emits]. auto. }
  destruct Hc as (new & Hnew & _). exists new.
  rewrite Hnew, <- app_assoc. reflexivity.
Qed.

(** C8: the pop of an iteration is called with the configured timeout
    floored to an integer, before anything else.  When PollingTimeoutError
    is declared as an OsomApiError (and as neither of the two classes caught
    before it), N pops in a row that time out leave the loop running: each
    of the N iterations raises PollingTimeoutError after its pop, and after
    them the loop is running on the trace [after_timeouts], the N pops each
    followed by a debug line.  An iteration that then returns leaves the
    loop running on its trace: the message it popped was processed.  More
    iterations continue from there. *)
Theorem timeouts_do_not_stop_the_loop env self N tr :
  derives env PollingTimeoutError OsomApiError = true ->
  derives env PollingTimeoutError NoMessageIdError = false ->
  derives env PollingTimeoutError CommandRuntimeError = false ->
  (forall i, i < N ->
     mq_brpop_bytes env (after_timeouts self i tr) (queue_path self)
                    (pop_timeout self) = inr None) ->
  start_polling env self N tr = (Running, after_timeouts self N tr)
  /\ (forall i, i < N ->
        polling_iter env self (after_timeouts self i tr)
        = (Raise (Exn PollingTimeoutError
                      "Blocking Right POP operation timeout"),
           after_timeouts self i tr
           ++ [EvBrpop (queue_path self) (pop_timeout self)]))
  /\ (forall tr',
        polling_iter env self (after_timeouts self N tr) = (Ok tt, tr') ->
        start_polling env self (S N) tr = (Running, tr'))
  /\ (forall k,
        start_polling env self (N + k) tr
        = start_polling env self k (after_timeouts self N tr))
  /\ (forall k tr',
        polling_iter env self (after_timeouts self N tr) = (Ok tt, tr') ->
        start_polling env self (N + S k) tr = start_polling env self k tr')
  /\ (forall tr0,
        exists rest,
          snd (polling_iter env self tr0)
          = tr0 ++ EvBrpop (queue_path self) (pop_timeout self) :: rest)
  /\ (inject_Z (pop_timeout self)
      <= WorkerConfig.redis_blocking_timeout (_config self)
      < inject_Z (pop_timeout self + 1))%Q.
Proof.
  intros Hosom Hnoid Hcmd Hpops.
  assert (Hloop : forall k,
            start_polling env self (N + k) tr
            = start_polling env self k (after_timeouts self N tr)).
  { revert tr Hpops. induction N as [|N' IH]; intros tr Hpops k.
    - reflexivity.
    - cbn [Nat.add after_timeouts].
      rewrite (start_polling_raise env self _ _ _ _
                 (polling_iter_timeout env self tr (Hpops 0 (Nat.lt_0_succ _)))).
      unfold start_polling_except, isinstance.
      cbn [exn_cls exn_class_eqb orb str]. rewrite Hosom, Hnoid, Hcmd.
      rewrite <- app_assoc. cbn [app]. apply IH.
      intros i Hi. apply (Hpops (S i)). lia. }
  split; [|split; [|split]].
  - rewrite <- (Nat.add_0_r N) at 1. rewrite Hloop. reflexivity.
  - intros i Hi. apply polling_iter_timeout. now apply Hpops.
  - intros tr' Hiter. rewrite <- (Nat.add_1_r N), Hloop.
    rewrite (start_polling_ok env self _ _ _ Hiter). reflexivity.
  - split; [exact Hloop|]. split; [|split].
    + intros k tr' Hiter. rewrite Hloop. now apply start_polling_ok.
    + intros tr0. apply polling_iter_pops_first.
    + unfold pop_timeout. split; [apply Qfloor_le | apply Qlt_floor].
Qed.

(** Two pops time out, the third returns the request "m1": after two
    iterations the loop is running on the two pops and their debug lines,
    after three it is running and has answered "m1". *)
Lemma timeouts_do_not_stop_the_loop_witness :
  let env :=
    Demo.mk_env [None; None; Demo.packet "m1"] Demo.echo Demo.never
                Demo.never in
  start_polling env (Demo.ctx env) 2 []
  = (Running,
     [ EvBrpop "/worker/echo" 2;
       EvLog DEBUG "Blocking Right POP operation timeout";
       EvBrpop "/worker/echo" 2;
       EvLog DEBUG "Blocking Right POP operation timeout" ])
  /\ start_polling env (Demo.ctx env) 3 []
     = (Running,
        [ EvBrpop "/worker/echo" 2;
          EvLog DEBUG "Blocking Right POP operation timeout";
          EvBrpop "/worker/echo" 2;
          EvLog DEBUG "Blocking Right POP operation timeout";
          EvBrpop "/worker/echo" 2; EvLog INFO "Received packet";
          EvLog INFO "Request[m1]";
          EvInsertMsg "m1" "discord" "1" "c1" "user" "nick" "/echo hi"
                      "2024-01-01T00:00:00";
          EvLog INFO "Successfully inserted msg_request to DB: 'm1'";
          EvRun (MsgRequest.make "m1" "discord" "1" "c1" "user" "nick"
                                 "/echo hi" [] "2024-01-01T00:00:00");
          EvInsertReply "m1" (Some "/echo hi") None "2024-01-01T00:00:01";
          EvLog INFO "Successfully inserted msg_response to DB: 'm1'";
          EvLpush "/response/m1" (Demo.b "m1|") 60 ]).
Proof.
  intros env.
  assert (Hpops : forall i, i < 2 ->
            mq_brpop_bytes env (after_timeouts (Demo.ctx env) i [])
                           (queue_path (Demo.ctx env))
                           (pop_timeout (Demo.ctx env)) = inr None).
  { intros [|[|i]] Hi; [reflexivity | reflexivity | lia]. }
  destruct (timeouts_do_not_stop_the_loop env (Demo.ctx env) 2 []
              eq_refl eq_refl eq_refl Hpops) as (H2 & _ & H3 & _).
  split; [exact H2 | apply H3; reflexivity].
Defined.

(** C10: when the persistence of the request or the handler's run raises,
    the iteration continues with the fallback error response: between the
    decoding and the push the calls made are calls of the request's
    persistence, possibly the run, and the log lines of the fault, none of
    them a record of the response side; the fallback is pushed when it
    encodes.  In any iteration, a record of the response side is one of the
    records of a response that the handler's run returned. *)
Theorem fallback_is_not_persisted env self tr req tr1 e tr2 :
  recv_request env self tr = (Ok req, tr1) ->
  (upload_msg_request env req tr1 = (Raise e, tr2)
   \/ exists e0 tr2',
        upload_msg_request env req tr1 = (Ok tt, tr2')
        /\ module_run env tr2' req = inl e0
        /\ e = ExnFrom CommandRuntimeError
                 "A command runtime error was detected" e0
        /\ tr2 = tr2' ++ [EvRun req]) ->
  let tr3 := tr2 ++ fault_logs self req e in
  let sent := fallback_response env req e tr3 in
  respond env self req tr1 = (Ok sent, tr3)
  /\ MsgResponse.msg_uuid sent = MsgRequest.msg_uuid req
  /\ (exists k run,
        tr3 = tr1 ++ (firstn k (request_events req) ++ run)
                  ++ fault_logs self req e
        /\ (run = [] \/ run = [EvRun req])
        /\ Forall (fun ev => is_reply_persist ev = false)
                  ((firstn k (request_events req) ++ run)
                   ++ fault_logs self req e))
  /\ (forall pkt,
        MsgResponse_encode env sent = inr pkt ->
        snd (polling_iter env self tr)
        = tr3 ++ [EvLpush (get_response_path env req) pkt (reply_expire self)])
  /\ (exists new,
        snd (polling_iter env self tr) = tr ++ new
        /\ Forall (fun ev =>
                     is_reply_persist ev = true ->
                     exists req' tr' resp,
                       module_run env tr' req' = inr resp
                       /\ In ev (response_events resp)) new).
Proof.
  intros Hrecv Hfault tr3 sent.
  assert (Hmsg : on_message env req tr1 = (Raise e, tr2)).
  { destruct Hfault as [Hup | (e0 & tr2' & Hup & Hrun & -> & ->)].
    - now apply on_message_persist_fault.
    - now apply on_message_run_fault. }
  assert (Hrespond : respond env self req tr1 = (Ok sent, tr3))
    by now apply respond_fallback.
  split; [exact Hrespond|]. split; [reflexivity|]. split; [|split].
  - assert (Hlogs : Forall (fun ev => is_reply_persist ev = false)
                           (fault_logs self req e)).
    { unfold fault_logs. destruct (WorkerConfig.debug _); repeat constructor. }
    assert (Hreq : forall k, Forall (fun ev => is_reply_persist ev = false)
                                    (firstn k (request_events req))).
    { intros k. apply Forall_firstn.
      eapply Forall_impl; [|apply request_events_spec]. now intros ev [_ H]. }
    destruct Hfault as [Hup | (e0 & tr2' & Hup & Hrun & -> & ->)].
    + destruct (upload_msg_request_prefix env req tr1) as (k & _ & Hk & _).
      rewrite Hup in Hk. cbn [snd] in Hk.
      exists k, []. split; [|split].
      * subst tr3. rewrite Hk, app_nil_r, <- app_assoc. reflexivity.
      * now left.
      * rewrite app_nil_r. apply Forall_app; auto.
    + destruct (upload_msg_request_prefix env req tr1) as (k & _ & Hk & _).
      rewrite Hup in Hk. cbn [snd] in Hk.
      exists k, [EvRun req]. split; [|split].
      * subst tr3. rewrite Hk, <- !app_assoc. reflexivity.
      * now right.
      * repeat (apply Forall_app; split); auto.
  - intros pkt Henc.
    rewrite (polling_iter_recv_ok env self _ _ _ _ _ Hrecv Hrespond).
    now apply reply_push_trace.
  - rewrite polling_iter_stages. apply emits_bind.
    + eapply emits_weaken; [|apply recv_request_emits].
      intros ev [_ H] H'. apply is_persist_reply in H. congruence.
    + intros req' tr' _. apply emits_bind.
      * eapply emits_weaken; [|apply respond_emits]. now intros ev [_ H].
      * intros resp tr'' _. eapply emits_weaken; [|apply reply_emits].
        intros ev H H'. congruence.
Qed.

Lemma fallback_is_not_persisted_witness :
  let env :=
    Demo.mk_env [Demo.packet "m2"] Demo.echo Demo.never
                (String.eqb "files/f1") in
  snd (polling_iter env (Demo.ctx env) [])
  = [ EvBrpop "/worker/echo" 2; EvLog INFO "Received packet";
      EvLog INFO "Request[m2]";
      EvInsertMsg "m2" "discord" "1" "c1" "user" "nick" "/echo hi"
                  "2024-01-01T00:00:00";
      EvLog INFO "Successfully inserted msg_request to DB: 'm2'";
      EvUploadData (Demo.b "hi") "files/f1" "text/plain";
      EvLog ERROR "Msg(m2) Request message upload failed: upload refused";
      EvLpush "/response/m2" (Demo.b "m2|upload refused") 60 ].
Proof.
  intros env.
  refine (proj1 (proj2 (proj2 (proj2
    (fallback_is_not_persisted env (Demo.ctx env) []
       (MsgRequest.make "m2" "discord" "1" "c1" "user" "nick" "/echo hi"
                        [Demo.a_file] "2024-01-01T00:00:00")
       [ EvBrpop "/worker/echo" 2; EvLog INFO "Received packet";
         EvLog INFO "Request[m2]" ]
       (Exn (OtherError "ClientError") "upload refused")
       [ EvBrpop "/worker/echo" 2; EvLog INFO "Received packet";
         EvLog INFO "Request[m2]";
         EvInsertMsg "m2" "discord" "1" "c1" "user" "nick" "/echo hi"
                     "2024-01-01T00:00:00";
         EvLog INFO "Successfully inserted msg_request to DB: 'm2'";
         EvUploadData (Demo.b "hi") "files/f1" "text/plain" ]
       eq_refl (or_introl eq_refl)))))
    (Demo.b "m2|upload refused") eq_refl).
Defined.

(** * Further properties of the runtime *)

(** ** What leaves an iteration *)

Lemma on_message_ok_uuid env req tr resp tr' :
  on_message env req tr = (Ok resp, tr') ->
  MsgResponse.msg_uuid resp = MsgRequest.msg_uuid req.
Proof.
  unfold on_message. unfold bind, try_except, call, raise, ret.
  repeat case_inner; try discriminate.
  intros [= <- _].
  match goal with H : negb _ = false |- _ =>
    apply negb_false_iff in H; now apply String.eqb_eq in H
  end.
Qed.

Lemma respond_uuid env self req tr resp tr' :
  respond env self req tr = (Ok resp, tr') ->
  MsgResponse.msg_uuid resp = MsgRequest.msg_uuid req.
Proof.
  destruct (on_message env req tr) as [[resp0|e] tr0] eqn:E.
  - rewrite (respond_ok env self _ _ _ _ E). intros [= <- _].
    now apply on_message_ok_uuid in E.
  - rewrite (respond_fallback env self _ _ _ _ E). now intros [= <- _].
Qed.

Lemma recv_request_pushes env self tr :
  filter is_push (snd (recv_request env self tr)) = filter is_push tr.
Proof.
  apply emits_filter.
  eapply emits_weaken; [|apply recv_request_emits]. now intros ev [H _].
Qed.

Lemma respond_pushes env self req tr :
  filter is_push (snd (respond env self req tr)) = filter is_push tr.
Proof.
  apply emits_filter.
  eapply emits_weaken; [|apply respond_emits]. now intros ev [H _].
Qed.

Lemma recv_request_ok_inv env self tr req tr1 :
  recv_request env self tr = (Ok req, tr1) ->
  exists data,
    mq_brpop_bytes env tr (queue_path self) (pop_timeout self)
    = inr (Some (encode_path env (queue_path self), data))
    /\ MsgRequest_decode env data = inr req.
Proof.
  unfold recv_request, check_packet, bind, call, log, raise, ret.
  fold (queue_path self) (pop_timeout self).
  destruct (mq_brpop_bytes env tr (queue_path self) (pop_timeout self))
    as [e|[[key data]|]] eqn:Hpop; try discriminate.
  destruct (bytes_eqb key (encode_path env (queue_path self))) eqn:Hkey;
    cbn [negb]; [|discriminate].
  apply bytes_eqb_eq in Hkey. subst key.
  destruct (MsgRequest_decode env data) as [e|req0] eqn:Hdec;
    [discriminate|].
  destruct (String.eqb (MsgRequest.msg_uuid req0) EmptyString);
    [discriminate|].
  destruct (_ <=? _)%Z; intros [= <- _]; exists data; split;
    reflexivity || assumption.
Qed.

(** X1: an iteration pushes at most once.  When it pushes, the pop returned
    a packet under the key of the queue, the payload decoded to a request
    with an identifier, and the push is the encoding of the response the
    iteration obtained for that request, which carries the identifier of
    that request, on the reply path of that request, with the floored
    expiry.  An iteration that returns has pushed. *)
Theorem iteration_pushes_once env self tr :
  let replied :=
    exists data req tr1 resp tr2 pkt,
      mq_brpop_bytes env tr (queue_path self) (pop_timeout self)
      = inr (Some (encode_path env (queue_path self), data))
      /\ MsgRequest_decode env data = inr req
      /\ recv_request env self tr = (Ok req, tr1)
      /\ MsgRequest.msg_uuid req <> EmptyString
      /\ respond env self req tr1 = (Ok resp, tr2)
      /\ MsgResponse.msg_uuid resp = MsgRequest.msg_uuid req
      /\ MsgResponse_encode env resp = inr pkt
      /\ snd (polling_iter env self tr)
         = tr2 ++ [EvLpush (get_response_path env req) pkt (reply_expire self)]
      /\ filter is_push (snd (polling_iter env self tr))
         = filter is_push tr
           ++ [EvLpush (get_response_path env req) pkt (reply_expire self)] in
  (filter is_push (snd (polling_iter env self tr)) = filter is_push tr
   \/ replied)
  /\ (fst (polling_iter env self tr) = Ok tt -> replied).
Proof.
  intros replied.
  destruct (recv_request env self tr) as [[req|e] tr1] eqn:Hrecv.
  - destruct (respond_returns env self tr1 req) as (resp & tr2 & Hresp).
    assert (Hpush : filter is_push tr2 = filter is_push tr).
    { replace tr2 with (snd (respond env self req tr1)) by now rewrite Hresp.
      rewrite respond_pushes.
      replace tr1 with (snd (recv_request env self tr)) by now rewrite Hrecv.
      apply recv_request_pushes. }
    destruct (MsgResponse_encode env resp) as [e|pkt] eqn:Henc.
    + rewrite (polling_iter_recv_ok env self _ _ _ _ _ Hrecv Hresp).
      rewrite (reply_encode_fault env self _ _ _ _ Henc). cbn [fst snd].
      split; [left | discriminate].
      rewrite filter_app. cbn [filter is_push]. now rewrite app_nil_r.
    + assert (Hrep : replied).
      { destruct (recv_request_ok_inv env self _ _ _ Hrecv)
          as (data & Hpop & Hdec).
        exists data, req, tr1, resp, tr2, pkt.
        split; [exact Hpop|]. split; [exact Hdec|]. split; [reflexivity|].
        split; [exact (recv_request_has_uuid env self _ _ _ Hrecv)|].
        split; [exact Hresp|].
        split; [exact (respond_uuid env self _ _ _ _ Hresp)|].
        split; [exact Henc|].
        rewrite (polling_iter_recv_ok env self _ _ _ _ _ Hrecv Hresp).
        rewrite (reply_push_trace env self _ _ _ _ Henc).
        split; [reflexivity|].
        rewrite filter_app. cbn [filter is_push]. now rewrite Hpush. }
      split; [now right | now intros _].
  - rewrite (polling_iter_recv_raise env self _ _ _ Hrecv). cbn [fst snd].
    split; [left | discriminate].
    replace tr1 with (snd (recv_request env self tr)) by now rewrite Hrecv.
    apply recv_request_pushes.
Qed.

(** The pop returns the request "m1" and the handler echoes it: the one
    push of the iteration is the echo, on the reply path of "m1". *)
Lemma iteration_pushes_once_witness :
  let env := Demo.mk_env [Demo.packet "m1"] Demo.echo Demo.never Demo.never in
  filter is_push (snd (polling_iter env (Demo.ctx env) []))
  = [EvLpush "/response/m1" (Demo.b "m1|") 60].
Proof.
  intros env.
  destruct (proj2 (iteration_pushes_once env (Demo.ctx env) []) eq_refl)
    as (data & req & tr1 & resp & tr2 & pkt
        & _ & _ & Hrecv & _ & Hresp & _ & Henc & _ & Hpush).
  injection Hrecv as <- <-.
  injection Hresp as <- <-.
  injection Henc as <-.
  exact Hpush.
Defined.

Lemma recv_request_raises env self tr e tr' :
  recv_request env self tr = (Raise e, tr') ->
  mq_brpop_bytes env tr (queue_path self) (pop_timeout self) = inl e
  \/ raised_by_iteration e.
Proof.
  unfold recv_request, check_packet, bind, call, log, raise, ret.
  fold (queue_path self) (pop_timeout self). unfold raised_by_iteration.
  repeat case_inner; try discriminate; intros [= <- _]; eauto 10.
Qed.

Lemma reply_raises env self req resp tr e tr' :
  reply env self req resp tr = (Raise e, tr') ->
  e = Exn PacketDumpError "Response packet encoding fail"
  \/ exists pkt,
       mq_lpush_bytes env tr (get_response_path env req) pkt
                      (reply_expire self) = Some e.
Proof.
  unfold reply, bind, call_unit, call, log, raise, ret.
  fold (reply_expire self).
  repeat case_inner; try discriminate; intros [= <- _]; eauto.
Qed.

(** X2: an exception that leaves an iteration was raised by the pop, or by
    the push, or is one of the five the iteration raises itself (timeout,
    key assertion, decoding, missing identifier, encoding).  An exception of
    the persistence or of the handler never leaves it. *)
Theorem iteration_exceptions env self tr e tr' :
  polling_iter env self tr = (Raise e, tr') ->
  mq_brpop_bytes env tr (queue_path self) (pop_timeout self) = inl e
  \/ raised_by_iteration e
  \/ exists req tr2 pkt,
       mq_lpush_bytes env tr2 (get_response_path env req) pkt
                      (reply_expire self) = Some e.
Proof.
  destruct (recv_request env self tr) as [[req|e1] tr1] eqn:Hrecv.
  - destruct (respond_returns env self tr1 req) as (resp & tr2 & Hresp).
    rewrite (polling_iter_recv_ok env self _ _ _ _ _ Hrecv Hresp).
    intros Hrep. apply reply_raises in Hrep as [-> | (pkt & Hpush)].
    + right; left. unfold raised_by_iteration. tauto.
    + right; right. eauto.
  - rewrite (polling_iter_recv_raise env self _ _ _ Hrecv).
    intros [= <- _]. apply recv_request_raises in Hrecv. tauto.
Qed.

Lemma iteration_exceptions_witness :
  let env := Demo.mk_env [Demo.packet ""] Demo.echo Demo.never Demo.never in
  let e := ExnFrom PacketLoadError "Packet decoding fail"
             (Exn (OtherError "ValueError") "empty packet") in
  mq_brpop_bytes env [] (queue_path (Demo.ctx env)) (pop_timeout (Demo.ctx env))
  = inl e
  \/ raised_by_iteration e
  \/ exists req tr2 pkt,
       mq_lpush_bytes env tr2 (get_response_path env req) pkt
                      (reply_expire (Demo.ctx env)) = Some e.
Proof.
  intros env e.
  apply (iteration_exceptions env (Demo.ctx env) [] e
           [ EvBrpop "/worker/echo" 2; EvLog INFO "Received packet";
             EvLog ERROR "empty packet" ]).
  reflexivity.
Defined.

(** ** Packets that are not answered *)

(** X3: a payload that does not decode is dropped.  The iteration logs the
    decoding exception at error level and raises PacketLoadError from it;
    nothing else is called.  When PacketLoadError is declared as an
    OsomApiError (and as neither of the two classes caught before it), the
    loop logs a debug line and goes on with the next iteration. *)
Theorem undecodable_packet_is_dropped env self tr data e0 :
  mq_brpop_bytes env tr (queue_path self) (pop_timeout self)
  = inr (Some (encode_path env (queue_path self), data)) ->
  MsgRequest_decode env data = inl e0 ->
  let new :=
    [ EvBrpop (queue_path self) (pop_timeout self);
      EvLog INFO "Received packet"; EvLog ERROR (str e0) ] in
  polling_iter env self tr
  = (Raise (ExnFrom PacketLoadError "Packet decoding fail" e0), tr ++ new)
  /\ (derives env PacketLoadError OsomApiError = true ->
      derives env PacketLoadError NoMessageIdError = false ->
      derives env PacketLoadError CommandRuntimeError = false ->
      forall n,
        start_polling env self (S n) tr
        = start_polling env self n
            (tr ++ new ++ [EvLog DEBUG "Packet decoding fail"])).
Proof.
  intros Hpop Hdec new.
  assert (Hiter : polling_iter env self tr
                  = (Raise (ExnFrom PacketLoadError "Packet decoding fail" e0),
                     tr ++ new)).
  { apply polling_iter_recv_raise.
    unfold recv_request, check_packet, bind, call, log, raise, ret.
    fold (queue_path self) (pop_timeout self).
    rewrite Hpop, bytes_eqb_refl. cbn [negb]. rewrite Hdec.
    now rewrite <- !app_assoc. }
  split; [exact Hiter|].
  intros Hosom Hnoid Hcmd n.
  rewrite (start_polling_raise env self _ _ _ _ Hiter).
  unfold start_polling_except, isinstance.
  cbn [exn_cls exn_class_eqb orb str]. rewrite Hosom, Hnoid, Hcmd.
  now rewrite <- app_assoc.
Qed.

Lemma undecodable_packet_is_dropped_witness :
  let env :=
    Demo.mk_env [Demo.packet ""; Demo.packet "m1"] Demo.echo Demo.never
                Demo.never in
  start_polling env (Demo.ctx env) 1 []
  = (Running,
     [ EvBrpop "/worker/echo" 2; EvLog INFO "Received packet";
       EvLog ERROR "empty packet"; EvLog DEBUG "Packet decoding fail" ]).
Proof.
  intros env.
  refine (proj2 (undecodable_packet_is_dropped env (Demo.ctx env) []
                   (Demo.b "") (Exn (OtherError "ValueError") "empty packet")
                   eq_refl eq_refl) eq_refl eq_refl eq_refl 0).
Defined.

(** X4: a packet popped under another key than the encoded path of the
    module fails the assertion of line 198 before its payload is decoded:
    the iteration raises AssertionError after the pop and one info line.
    When AssertionError derives from none of the classes the loop catches,
    the loop ends with it. *)
Theorem foreign_key_stops_the_loop env self tr key data :
  mq_brpop_bytes env tr (queue_path self) (pop_timeout self)
  = inr (Some (key, data)) ->
  key <> encode_path env (queue_path self) ->
  let tr' :=
    tr ++ [ EvBrpop (queue_path self) (pop_timeout self);
            EvLog INFO "Received packet" ] in
  polling_iter env self tr = (Raise (Exn AssertionError EmptyString), tr')
  /\ (derives env AssertionError NoMessageIdError = false ->
      derives env AssertionError CommandRuntimeError = false ->
      derives env AssertionError OsomApiError = false ->
      forall n,
        start_polling env self (S n) tr
        = (Raised (Exn AssertionError EmptyString), tr')).
Proof.
  intros Hpop Hkey tr'.
  assert (Hiter : polling_iter env self tr
                  = (Raise (Exn AssertionError EmptyString), tr')).
  { apply polling_iter_recv_raise.
    unfold recv_request, check_packet, bind, call, log, raise, ret.
    fold (queue_path self) (pop_timeout self).
    rewrite Hpop, (bytes_eqb_neq _ _ Hkey). cbn [negb].
    subst tr'. now rewrite <- app_assoc. }
  split; [exact Hiter|].
  intros H1 H2 H3 n.
  rewrite (start_polling_raise env self _ _ _ _ Hiter).
  unfold start_polling_except, isinstance.
  cbn [exn_cls exn_class_eqb orb]. now rewrite H1, H2, H3.
Qed.

Lemma foreign_key_stops_the_loop_witness :
  let env :=
    Demo.mk_env [Some (Demo.b "/worker/other", Demo.b "m1"); Demo.packet "m1"]
                Demo.echo Demo.never Demo.never in
  start_polling env (Demo.ctx env) 2 []
  = (Raised (Exn AssertionError EmptyString),
     [EvBrpop "/worker/echo" 2; EvLog INFO "Received packet"]).
Proof.
  intros env.
  refine (proj2 (foreign_key_stops_the_loop env (Demo.ctx env) []
                   (Demo.b "/worker/other") (Demo.b "m1") eq_refl _)
                eq_refl eq_refl eq_refl 1).
  discriminate.
Defined.

(** ** Dispatch *)



(** X6: when the handler's run returns and the persistence of its response
    raises, the requester gets an error response instead of the handler's:
    the iteration pushes the encoding of the fallback that carries the
    identifier of the request and the text of the persistence fault, and
    returns. *)
Theorem response_persistence_fault_becomes_reply
    env self tr req tr1 tr2 resp e tr3 pkt :
  recv_request env self tr = (Ok req, tr1) ->
  upload_msg_request env req tr1 = (Ok tt, tr2) ->
  module_run env tr2 req = inr resp ->
  upload_msg_response env resp (tr2 ++ [EvRun req]) = (Raise e, tr3) ->
  let tr4 := tr3 ++ fault_logs self req e in
  let sent := fallback_response env req e tr4 in
  MsgResponse_encode env sent = inr pkt ->
  mq_lpush_bytes env tr4 (get_response_path env req) pkt (reply_expire self)
  = None ->
  MsgResponse.error sent = Some (str e)
  /\ polling_iter env self tr
     = (Ok tt,
        tr4 ++ [EvLpush (get_response_path env req) pkt (reply_expire self)])
  /\ filter is_push (snd (polling_iter env self tr))
     = filter is_push tr
       ++ [EvLpush (get_response_path env req) pkt (reply_expire self)].
Proof.
  intros Hrecv Hup Hrun Hresp tr4 sent Henc Hpush.
  assert (Hmsg : on_message env req tr1 = (Raise e, tr3)).
  { rewrite (on_message_run_ok env _ _ _ _ Hup Hrun).
    now apply bind_raise. }
  assert (Hrespond : respond env self req tr1 = (Ok sent, tr4))
    by now apply respond_fallback.
  assert (Hiter : polling_iter env self tr
                  = (Ok tt,
                     tr4 ++ [EvLpush (get_response_path env req) pkt
                                     (reply_expire self)])).
  { rewrite (polling_iter_recv_ok env self _ _ _ sent tr4 Hrecv Hrespond).
    now apply reply_push. }
  split; [reflexivity|]. split; [exact Hiter|].
  rewrite Hiter. cbn [snd]. rewrite filter_app. cbn [filter is_push]. f_equal.
  replace tr4 with (snd (respond env self req tr1)) by now rewrite Hrespond.
  rewrite respond_pushes.
  replace tr1 with (snd (recv_request env self tr)) by now rewrite Hrecv.
  apply recv_request_pushes.
Qed.

Lemma response_persistence_fault_becomes_reply_witness :
  let run := fun req : MsgRequest.t =>
    @inr exn _ (MsgResponse.make (MsgRequest.msg_uuid req) None None
                  [Demo.empty_file] "2024-01-01T00:00:01") in
  let env := Demo.mk_env [Demo.packet "m1"] run Demo.never Demo.never in
  filter is_push (snd (polling_iter env (Demo.ctx env) []))
  = [] ++ [EvLpush "/response/m1" (Demo.b "m1|Empty file content") 60].
Proof.
  intros run env.
  refine (proj2 (proj2
    (response_persistence_fault_becomes_reply env (Demo.ctx env) []
       (MsgRequest.make "m1" "discord" "1" "c1" "user" "nick" "/echo hi" []
                        "2024-01-01T00:00:00")
       [ EvBrpop "/worker/echo" 2; EvLog INFO "Received packet";
         EvLog INFO "Request[m1]" ]
       [ EvBrpop "/worker/echo" 2; EvLog INFO "Received packet";
         EvLog INFO "Request[m1]";
         EvInsertMsg "m1" "discord" "1" "c1" "user" "nick" "/echo hi"
                     "2024-01-01T00:00:00";
         EvLog INFO "Successfully inserted msg_request to DB: 'm1'" ]
       (MsgResponse.make "m1" None None [Demo.empty_file]
                         "2024-01-01T00:00:01")
       (Exn BufferError "Empty file content")
       _ (Demo.b "m1|Empty file content")
       eq_refl eq_refl eq_refl eq_refl eq_refl eq_refl))).
Defined.

Lemma files_events_no_run msg_uuid flow storage files :
  Forall (fun ev => forall r0, ev <> EvRun r0)
         (files_events msg_uuid flow storage files).
Proof.
  induction files as [|file rest IH]; cbn; [constructor|].
  apply Forall_app. split; [|exact IH].
  unfold file_events. destruct (MsgFile.content file);
    repeat (apply Forall_cons; [intros r0; discriminate|]); apply Forall_nil.
Qed.

Lemma request_events_no_run message :
  Forall (fun ev => forall r0, ev <> EvRun r0) (request_events message).
Proof.
  unfold request_events.
  repeat (apply Forall_cons; [intros r0; discriminate|]).
  apply files_events_no_run.
Qed.

Lemma response_events_no_run message :
  Forall (fun ev => forall r0, ev <> EvRun r0) (response_events message).
Proof.
  unfold response_events.
  repeat (apply Forall_cons; [intros r0; discriminate|]).
  apply files_events_no_run.
Qed.

Lemma no_run_not_in (l : list event) :
  Forall (fun ev => forall r0, ev <> EvRun r0) l ->
  forall r0, ~ In (EvRun r0) l.
Proof.
  intros Hl r0 Hin. rewrite Forall_forall in Hl. now apply (Hl _ Hin r0).
Qed.

Lemma on_message_after_run env req tr tr1 resp :
  upload_msg_request env req tr = (Ok tt, tr1) ->
  module_run env tr1 req = inr resp ->
  exists k,
    1 <= k
    /\ snd (on_message env req tr)
       = (tr1 ++ [EvRun req]) ++ firstn k (response_events resp).
Proof.
  intros Hup Hrun. rewrite (on_message_run_ok env _ _ _ _ Hup Hrun).
  destruct (upload_msg_response_prefix env resp (tr1 ++ [EvRun req]))
    as (k & Hk & Htr & _).
  exists k. split; [exact Hk|]. unfold bind.
  destruct (upload_msg_response env resp (tr1 ++ [EvRun req]))
    as [[[]|e] t'] eqn:E; cbn [snd] in *; [|exact Htr].
  now destruct (negb _).
Qed.

(** X7: the handler is run once, and only when the whole of the request's
    persistence returned.  When that persistence raises, [on_message] raises
    the same exception and the handler is not run; when it returns, the
    calls of [on_message] are those of the request's persistence, then the
    run, then no other run. *)
Theorem handler_runs_after_request_is_persisted env req tr :
  (forall e tr1,
     upload_msg_request env req tr = (Raise e, tr1) ->
     on_message env req tr = (Raise e, tr1)
     /\ exists k,
          tr1 = tr ++ firstn k (request_events req)
          /\ forall r0, ~ In (EvRun r0) (firstn k (request_events req)))
  /\ (forall tr1,
        upload_msg_request env req tr = (Ok tt, tr1) ->
        exists rest,
          snd (on_message env req tr)
          = tr ++ request_events req ++ EvRun req :: rest
          /\ forall r0, ~ In (EvRun r0) (request_events req ++ rest)).
Proof.
  split.
  - intros e tr1 Hup.
    split; [now apply on_message_persist_fault|].
    destruct (upload_msg_request_prefix env req tr) as (k & _ & Hk & _).
    rewrite Hup in Hk. exists k. split; [exact Hk|].
    apply no_run_not_in, Forall_firstn, request_events_no_run.
  - intros tr1 Hup.
    destruct (upload_msg_request_prefix env req tr) as (_ & _ & _ & Hall).
    rewrite Hup in Hall. specialize (Hall eq_refl). cbn [snd] in Hall.
    destruct (module_run env tr1 req) as [e|resp] eqn:Hrun.
    + exists []. rewrite (on_message_run_fault env _ _ _ _ Hup Hrun).
      cbn [snd]. rewrite Hall, <- app_assoc, app_nil_r.
      split; [reflexivity|].
      apply no_run_not_in, request_events_no_run.
    + destruct (on_message_after_run env _ _ _ _ Hup Hrun) as (k & _ & Hk).
      exists (firstn k (response_events resp)).
      rewrite Hk, Hall, <- !app_assoc. split; [reflexivity|].
      apply no_run_not_in, Forall_app. split.
      * apply request_events_no_run.
      * apply Forall_firstn, response_events_no_run.
Qed.

Lemma handler_runs_after_request_is_persisted_witness :
  let env :=
    Demo.mk_env [] Demo.echo Demo.never (String.eqb "files/f1") in
  let req :=
    MsgRequest.make "m2" "discord" "1" "c1" "user" "nick" "/echo hi"
                    [Demo.a_file] "2024-01-01T00:00:00" in
  on_message env req []
  = (Raise (Exn (OtherError "ClientError") "upload refused"),
     [ EvInsertMsg "m2" "discord" "1" "c1" "user" "nick" "/echo hi"
                   "2024-01-01T00:00:00";
       EvLog INFO "Successfully inserted msg_request to DB: 'm2'";
       EvUploadData (Demo.b "hi") "files/f1" "text/plain" ]).
Proof.
  intros env req.
  apply (proj1 (handler_runs_after_request_is_persisted env req [])).
  reflexivity.
Defined.

(** X8: the reply record is inserted under the identifier the handler
    returned, right after the run and before the identifiers are compared:
    a response under a foreign identifier is recorded as well. *)
Theorem reply_is_recorded_before_the_check env req tr tr1 resp :
  upload_msg_request env req tr = (Ok tt, tr1) ->
  module_run env tr1 req = inr resp ->
  exists rest,
    snd (on_message env req tr)
    = tr1 ++ [ EvRun req;
               EvInsertReply (MsgResponse.msg_uuid resp)
                 (MsgResponse.content resp) (MsgResponse.error resp)
                 (MsgResponse.created_at resp) ] ++ rest.
Proof.
  intros Hup Hrun.
  destruct (on_message_after_run env _ _ _ _ Hup Hrun) as (k & Hk & Htr).
  destruct k as [|k]; [lia|]. unfold response_events in Htr.
  cbn [firstn] in Htr. eexists. rewrite Htr, <- app_assoc. reflexivity.
Qed.

Lemma reply_is_recorded_before_the_check_witness :
  let env := Demo.mk_env [] Demo.wrong_uuid Demo.never Demo.never in
  let req :=
    MsgRequest.make "m1" "discord" "1" "c1" "user" "nick" "/echo hi" []
                    "2024-01-01T00:00:00" in
  exists rest,
    snd (on_message env req [])
    = [ EvInsertMsg "m1" "discord" "1" "c1" "user" "nick" "/echo hi"
                    "2024-01-01T00:00:00";
        EvLog INFO "Successfully inserted msg_request to DB: 'm1'" ]
      ++ [ EvRun req;
           EvInsertReply "other" (Some "/echo hi") None
                         "2024-01-01T00:00:01" ] ++ rest.
Proof.
  intros env req.
  apply (reply_is_recorded_before_the_check env req [] _
           (MsgResponse.make "other" (Some "/echo hi") None []
                             "2024-01-01T00:00:01"));
    reflexivity.
Defined.

(** ** Files *)

Lemma absent_content_not_ok env file msg_uuid flow storage tr :
  MsgFile.content file = None ->
  fst (upload_msg_file env file msg_uuid flow storage tr) <> Ok tt.
Proof. intros Hc. unfold upload_msg_file. rewrite Hc. discriminate. Qed.

Lemma upload_msg_files_ok_content env files msg_uuid flow storage tr tr' :
  upload_msg_files env files msg_uuid flow storage tr = (Ok tt, tr') ->
  Forall has_content files.
Proof.
  revert tr. induction files as [|file rest IH]; intros tr Hok;
    [constructor|].
  cbn [upload_msg_files] in Hok. unfold bind in Hok.
  destruct (upload_msg_file env file msg_uuid flow storage tr)
    as [[[]|e] tr1] eqn:E; [|discriminate].
  constructor; [|now apply (IH tr1)].
  unfold has_content. intros Hnone.
  apply (absent_content_not_ok env file msg_uuid flow storage tr Hnone).
  now rewrite E.
Qed.

(** X9: a persistence of files that returns has met no file without
    content, and has made for every file, in order, the three calls and
    their log lines. *)
Theorem persisted_files_have_content env files msg_uuid flow storage tr tr' :
  upload_msg_files env files msg_uuid flow storage tr = (Ok tt, tr') ->
  Forall has_content files
  /\ tr' = tr ++ files_events msg_uuid flow storage files.
Proof.
  intros Hok. split.
  - now apply (upload_msg_files_ok_content env _ msg_uuid flow storage tr tr').
  - destruct (upload_msg_files_prefix env files msg_uuid flow storage tr)
      as (k & _ & Htr & Hk).
    rewrite Hok in Htr, Hk. cbn [fst snd] in Htr, Hk.
    now rewrite Htr, (Hk eq_refl), firstn_all.
Qed.

Lemma persisted_files_have_content_witness :
  let env := Demo.mk_env [] Demo.echo Demo.never Demo.never in
  Forall has_content [Demo.a_file; Demo.refused_file]
  /\ file_events "m1" request r2 Demo.a_file
     ++ file_events "m1" request r2 Demo.refused_file
     = [] ++ files_events "m1" request r2 [Demo.a_file; Demo.refused_file].
Proof.
  intros env.
  apply (persisted_files_have_content env [Demo.a_file; Demo.refused_file]
           "m1" request r2 []).
  reflexivity.
Defined.

(** ** The loop, over several iterations *)

Lemma polling_iter_appends env self tr :
  exists new, snd (polling_iter env self tr) = tr ++ new.
Proof.
  destruct (polling_iter_pops_first env self tr) as (rest & H). eauto.
Qed.

Lemma start_polling_appends env self n tr :
  exists new, snd (start_polling env self n tr) = tr ++ new.
Proof.
  revert tr. induction n as [|n IH]; intros tr.
  - exists []. cbn. now rewrite app_nil_r.
  - destruct (polling_iter_appends env self tr) as (new1 & H1).
    destruct (polling_iter env self tr) as [[[]|e] tr1] eqn:E;
      cbn [snd] in H1; subst tr1.
    + rewrite (start_polling_ok env self _ _ _ E).
      destruct (IH (tr ++ new1)) as (new2 & H2).
      exists (new1 ++ new2). now rewrite H2, app_assoc.
    + rewrite (start_polling_raise env self _ _ _ _ E).
      destruct (start_polling_except env e) as [logs|]; [|now exists new1].
      destruct (IH ((tr ++ new1) ++ logs)) as (new2 & H2).
      exists (new1 ++ logs ++ new2). now rewrite H2, !app_assoc.
Qed.

(** X10: the loop ends only with an exception that left an iteration and is
    an instance of none of the classes its except clauses name; the trace at
    the end is the trace of that iteration. *)
Theorem loop_ends_with_unclassified_fault env self n tr e tr' :
  start_polling env self n tr = (Raised e, tr') ->
  isinstance env e NoMessageIdError = false
  /\ isinstance env e CommandRuntimeError = false
  /\ isinstance env e OsomApiError = false
  /\ exists tr0, polling_iter env self tr0 = (Raise e, tr').
Proof.
  revert tr. induction n as [|n IH]; intros tr; [discriminate|].
  cbn [start_polling].
  destruct (polling_iter env self tr) as [[[]|e1] tr1] eqn:E; [apply IH|].
  destruct (isinstance env e1 NoMessageIdError) eqn:H1; [apply IH|].
  destruct (isinstance env e1 CommandRuntimeError) eqn:H2; [apply IH|].
  destruct (isinstance env e1 OsomApiError) eqn:H3; [apply IH|].
  intros [= <- <-]. eauto.
Qed.

Lemma loop_ends_with_unclassified_fault_witness :
  let env :=
    Demo.mk_env [None; Some (Demo.b "/worker/other", Demo.b "m1")] Demo.echo
                Demo.never Demo.never in
  isinstance env (Exn AssertionError EmptyString) OsomApiError = false.
Proof.
  intros env.
  refine (proj1 (proj2 (proj2
    (loop_ends_with_unclassified_fault env (Demo.ctx env) 3 []
       (Exn AssertionError EmptyString)
       [ EvBrpop "/worker/echo" 2;
         EvLog DEBUG "Blocking Right POP operation timeout";
         EvBrpop "/worker/echo" 2; EvLog INFO "Received packet" ]
       eq_refl)))).
Defined.

(** ** The lifecycle around the loop *)

Lemma events_of_app h1 h2 : events_of (h1 ++ h2) = events_of h1 ++ events_of h2.
Proof. apply flat_map_app. Qed.

Lemma lifecycle_of_app h1 h2 :
  lifecycle_of (h1 ++ h2) = lifecycle_of h1 ++ lifecycle_of h2.
Proof. apply flat_map_app. Qed.

Lemma events_of_map_Ev new : events_of (map Ev new) = new.
Proof.
  induction new as [|ev new IH]; [reflexivity|].
  cbn [map events_of flat_map app]. f_equal. exact IH.
Qed.

Lemma lifecycle_of_map_Ev new : lifecycle_of (map Ev new) = [].
Proof. induction new as [|ev new IH]; [reflexivity | exact IH]. Qed.

Lemma polling_spec env self n h r tr' :
  start_polling env self n (events_of h) = (r, tr') ->
  exists new,
    tr' = events_of h ++ new /\ polling env self n h = (r, h ++ map Ev new).
Proof.
  intros Hloop.
  destruct (start_polling_appends env self n (events_of h)) as (new & Hnew).
  rewrite Hloop in Hnew. cbn [snd] in Hnew. exists new.
  split; [exact Hnew|]. unfold polling. rewrite Hloop, Hnew.
  now rewrite skipn_app, skipn_all, Nat.sub_diag.
Qed.

Section MainProperties.

Variable env : Env.
Variable self : WorkerContext.t.
Variable fault : history -> lifecycle_call -> option exn.

(** The history after the four opens, when none raises. *)
Lemma opens_ok h :
  (forall h' c, is_close c = false -> fault h' c = None) ->
  (open_common_context fault ;; open_module fault)%life h
  = (Ok tt,
     h ++ [ Life MqOpen; Life DbOpen; Life S3Open;
            Ev (EvLog DEBUG "Open modules ..."); Life ModuleOpen;
            Ev (EvLog INFO "Opened modules") ]).
Proof.
  intros Hf.
  unfold open_common_context, open_module, hbind, hcall, hlog.
  rewrite !Hf by reflexivity. now rewrite <- !app_assoc.
Qed.

Lemma opens_lifecycle h r h1 :
  (open_common_context fault ;; open_module fault)%life h = (r, h1) ->
  exists k,
    1 <= k <= 4
    /\ lifecycle_of h1
       = lifecycle_of h ++ firstn k [MqOpen; DbOpen; S3Open; ModuleOpen]
    /\ (r = Ok tt -> k = 4)
    /\ (events_of h1 = events_of h
        \/ events_of h1 = events_of h ++ [EvLog DEBUG "Open modules ..."]
        \/ events_of h1
           = events_of h ++ [ EvLog DEBUG "Open modules ...";
                              EvLog INFO "Opened modules" ]).
Proof.
  unfold open_common_context, open_module, hbind, hcall, hlog.
  destruct (fault h MqOpen).
  { intros [= <- <-]. exists 1.
    rewrite lifecycle_of_app, events_of_app. cbn. rewrite app_nil_r.
    repeat split; auto; discriminate. }
  destruct (fault _ DbOpen).
  { intros [= <- <-]. exists 2.
    rewrite !lifecycle_of_app, !events_of_app. cbn.
    rewrite !app_nil_r, <- app_assoc.
    repeat split; auto; discriminate. }
  destruct (fault _ S3Open).
  { intros [= <- <-]. exists 3.
    rewrite !lifecycle_of_app, !events_of_app. cbn.
    rewrite !app_nil_r, <- !app_assoc.
    repeat split; auto; discriminate. }
  destruct (fault _ ModuleOpen).
  { intros [= <- <-]. exists 4.
    rewrite !lifecycle_of_app, !events_of_app. cbn.
    rewrite !app_nil_r, <- !app_assoc.
    repeat split; auto; discriminate. }
  intros [= <- <-]. exists 4.
  rewrite !lifecycle_of_app, !events_of_app. cbn.
  rewrite !app_nil_r, <- !app_assoc.
  repeat split; auto.
Qed.

End MainProperties.

Lemma start_history_events h :
  events_of
    ((h ++ [ Life MqOpen; Life DbOpen; Life S3Open;
             Ev (EvLog DEBUG "Open modules ..."); Life ModuleOpen;
             Ev (EvLog INFO "Opened modules") ])
     ++ [Ev (EvLog INFO "Start polling ...")])
  = events_of h ++ [ EvLog DEBUG "Open modules ...";
                     EvLog INFO "Opened modules";
                     EvLog INFO "Start polling ..." ].
Proof. rewrite !events_of_app. cbn. now rewrite <- app_assoc. Qed.

(** X11: when no lifecycle call raises and an exception leaves the loop,
    [main] raises that exception after these lifecycle calls, in this
    order: the broker, the database, the object store and the module are
    opened; the module, the object store, the database and the broker are
    closed. *)
Theorem main_closes_in_reverse_order env self fault n h e tr' :
  (forall h' c, fault h' c = None) ->
  start_polling env self n
    (events_of h ++ [ EvLog DEBUG "Open modules ...";
                      EvLog INFO "Opened modules";
                      EvLog INFO "Start polling ..." ])
  = (Raised e, tr') ->
  fst (main env self fault n h) = Raised e
  /\ lifecycle_of (snd (main env self fault n h))
     = lifecycle_of h
       ++ [ MqOpen; DbOpen; S3Open; ModuleOpen;
            ModuleClose; S3Close; DbClose; MqClose ]
  /\ events_of (snd (main env self fault n h))
     = tr' ++ [ EvLog INFO "Polling is done...";
                EvLog DEBUG "Close modules ...";
                EvLog INFO "Closed modules" ].
Proof.
  intros Hf Hloop. unfold main.
  rewrite opens_ok by (intros; apply Hf).
  rewrite <- start_history_events in Hloop.
  destruct (polling_spec env self _ _ _ _ Hloop) as (new & Htr & Hpoll).
  rewrite Hpoll.
  unfold close_module, close_common_context, hbind, hcall, hlog.
  rewrite !Hf. cbn [fst snd].
  split; [reflexivity|]. split.
  - rewrite !lifecycle_of_app, lifecycle_of_map_Ev. cbn.
    now rewrite !app_nil_r, <- !app_assoc.
  - rewrite !events_of_app, events_of_map_Ev, <- !events_of_app.
    rewrite !events_of_app in *. cbn in *.
    rewrite !app_nil_r in *. rewrite Htr. now rewrite <- !app_assoc.
Qed.

Lemma main_closes_in_reverse_order_witness :
  let env :=
    Demo.mk_env [Some (Demo.b "/worker/other", Demo.b "m1")] Demo.echo
                Demo.never Demo.never in
  lifecycle_of (snd (main env (Demo.ctx env) (fun _ _ => None) 3 []))
  = [] ++ [ MqOpen; DbOpen; S3Open; ModuleOpen;
            ModuleClose; S3Close; DbClose; MqClose ].
Proof.
  intros env.
  refine (proj1 (proj2
    (main_closes_in_reverse_order env (Demo.ctx env) (fun _ _ => None) 3 []
       (Exn AssertionError EmptyString)
       [ EvLog DEBUG "Open modules ..."; EvLog INFO "Opened modules";
         EvLog INFO "Start polling ...";
         EvBrpop "/worker/echo" 2; EvLog INFO "Received packet" ]
       (fun _ _ => eq_refl) eq_refl))).
Defined.

(** X12: as long as the loop runs, [main] has opened the broker, the
    database, the object store and the module, in this order, and has
    closed nothing. *)
Theorem main_running_closes_nothing env self fault n h :
  fst (main env self fault n h) = Running ->
  lifecycle_of (snd (main env self fault n h))
  = lifecycle_of h ++ [MqOpen; DbOpen; S3Open; ModuleOpen].
Proof.
  unfold main.
  destruct ((open_common_context fault ;; open_module fault)%life h)
    as [[[]|e] h1] eqn:Hopen; [|discriminate].
  destruct (opens_lifecycle fault _ _ _ Hopen) as (k & _ & Hk & H4 & _).
  rewrite (H4 eq_refl) in Hk. cbn [firstn] in Hk.
  destruct (start_polling env self n
              (events_of (h1 ++ [Ev (EvLog INFO "Start polling ...")])))
    as [r tr'] eqn:Hloop.
  destruct (polling_spec env self _ _ _ _ Hloop) as (new & _ & Hpoll).
  rewrite Hpoll. destruct r as [|e].
  - intros _. cbn [snd].
    rewrite !lifecycle_of_app, lifecycle_of_map_Ev, Hk. cbn.
    now rewrite !app_nil_r.
  - match goal with |- context [hbind ?c ?k ?x] =>
      destruct (hbind c k x) as [[[]|e'] h3]
    end; cbv beta iota delta [fst]; discriminate.
Qed.

Lemma main_running_closes_nothing_witness :
  let env := Demo.mk_env [None; None] Demo.echo Demo.never Demo.never in
  lifecycle_of (snd (main env (Demo.ctx env) (fun _ _ => None) 2 []))
  = [] ++ [MqOpen; DbOpen; S3Open; ModuleOpen].
Proof.
  intros env.
  apply (main_running_closes_nothing env (Demo.ctx env) (fun _ _ => None) 2 []).
  reflexivity.
Defined.

(** X13: the opens are outside the [try] of [main]: when one of them
    raises, [main] raises that exception at once.  The opens made so far
    are an initial segment of broker, database, object store, module;
    nothing is closed, and the loop is not started: only the log lines of
    the module's opening were written. *)
Theorem main_open_fault_closes_nothing env self fault n h e h1 :
  (open_common_context fault ;; open_module fault)%life h = (Raise e, h1) ->
  main env self fault n h = (Raised e, h1)
  /\ (exists k,
        1 <= k <= 4
        /\ lifecycle_of h1
           = lifecycle_of h ++ firstn k [MqOpen; DbOpen; S3Open; ModuleOpen])
  /\ (events_of h1 = events_of h
      \/ events_of h1 = events_of h ++ [EvLog DEBUG "Open modules ..."]).
Proof.
  intros Hopen. split; [unfold main; now rewrite Hopen|].
  destruct (opens_lifecycle fault _ _ _ Hopen) as (k & Hk & Hl & _ & Hev).
  split; [eauto|].
  destruct Hev as [Hev | [Hev | Hev]]; [now left | now right |].
  exfalso. revert Hopen.
  unfold open_common_context, open_module, hbind, hcall, hlog.
  repeat case_inner; try discriminate; intros [= <- <-];
    rewrite !events_of_app in Hev; rewrite <- ?app_assoc in Hev;
    cbn in Hev; apply app_inv_head in Hev; discriminate.
Qed.

Lemma main_open_fault_closes_nothing_witness :
  let env := Demo.mk_env [Demo.packet "m1"] Demo.echo Demo.never Demo.never in
  let fault := fun (_ : history) c =>
    match c with
    | DbOpen => Some (Exn (OtherError "ConnectionError") "database is down")
    | _ => None
    end in
  main env (Demo.ctx env) fault 5 []
  = (Raised (Exn (OtherError "ConnectionError") "database is down"),
     [Life MqOpen; Life DbOpen]).
Proof.
  intros env fault.
  apply (main_open_fault_closes_nothing env (Demo.ctx env) fault 5 []).
  reflexivity.
Defined.

(** X14: when an exception left the loop and the closing of the module
    raises in the [finally] of [main], [main] raises the exception of the
    closing instead of the one of the loop, and none of the three
    connections is closed. *)
Theorem main_close_module_fault env self fault n h h2 e e' :
  (forall h' c, is_close c = false -> fault h' c = None) ->
  polling env self n
    ((h ++ [ Life MqOpen; Life DbOpen; Life S3Open;
             Ev (EvLog DEBUG "Open modules ..."); Life ModuleOpen;
             Ev (EvLog INFO "Opened modules") ])
     ++ [Ev (EvLog INFO "Start polling ...")])
  = (Raised e, h2) ->
  fault (h2 ++ [ Ev (EvLog INFO "Polling is done...");
                 Ev (EvLog DEBUG "Close modules ...") ]) ModuleClose
  = Some e' ->
  main env self fault n h
  = (Raised e',
     h2 ++ [ Ev (EvLog INFO "Polling is done...");
             Ev (EvLog DEBUG "Close modules ..."); Life ModuleClose ])
  /\ lifecycle_of (snd (main env self fault n h))
     = lifecycle_of h ++ [MqOpen; DbOpen; S3Open; ModuleOpen; ModuleClose].
Proof.
  intros Hf Hpoll Hclose.
  assert (Hmain : main env self fault n h
                  = (Raised e',
                     h2 ++ [ Ev (EvLog INFO "Polling is done...");
                             Ev (EvLog DEBUG "Close modules ...");
                             Life ModuleClose ])).
  { unfold main. rewrite opens_ok by exact Hf. rewrite Hpoll.
    unfold close_module, close_common_context, hbind, hcall, hlog.
    rewrite <- !app_assoc. cbn [app]. rewrite Hclose.
    reflexivity. }
  split; [exact Hmain|]. rewrite Hmain. cbn [snd].
  unfold polling in Hpoll.
  destruct (start_polling env self n _) as [r tr'] in Hpoll.
  injection Hpoll as _ <-.
  rewrite !lifecycle_of_app, lifecycle_of_map_Ev. cbn.
  now rewrite !app_nil_r, <- !app_assoc.
Qed.

Lemma main_close_module_fault_witness :
  let env :=
    Demo.mk_env [Some (Demo.b "/worker/other", Demo.b "m1")] Demo.echo
                Demo.never Demo.never in
  let fault := fun (_ : history) c =>
    match c with
    | ModuleClose => Some (Exn (OtherError "RuntimeError") "close failed")
    | _ => None
    end in
  lifecycle_of (snd (main env (Demo.ctx env) fault 3 []))
  = [] ++ [MqOpen; DbOpen; S3Open; ModuleOpen; ModuleClose].
Proof.
  intros env fault.
  refine (proj2
    (main_close_module_fault env (Demo.ctx env) fault 3 [] _
       (Exn AssertionError EmptyString)
       (Exn (OtherError "RuntimeError") "close failed") _ eq_refl eq_refl)).
  now intros h' [].
Defined.

(** ** WorkerConfig.from_namespace *)

(** X15: a configuration is built only from a namespace whose request
    path and module path are non-empty strings and whose isolation flag is
    a boolean, after the common checks passed; it is the object the
    construction returned. *)
Theorem from_namespace_validates C acp cls args c :
  from_namespace C acp cls args = Ok c ->
  exists r m b,
    Namespace.request_path args = PyStr r /\ r <> EmptyString
    /\ Namespace.module_path args = PyStr m /\ m <> EmptyString
    /\ Namespace.isolate_module args = PyBool b
    /\ acp args = None
    /\ cls args = inr c.
Proof.
  unfold from_namespace.
  destruct (Namespace.request_path args) as [|r|?|?|?]; cbn;
    try discriminate;
    try (destruct (negb _); [discriminate|];
         destruct (negb _); discriminate).
  destruct (String.eqb r EmptyString) eqn:Hr; cbn; [discriminate|].
  destruct (Namespace.module_path args) as [|m|?|?|?]; cbn;
    try discriminate;
    try (destruct (negb _); discriminate).
  destruct (String.eqb m EmptyString) eqn:Hm; cbn; [discriminate|].
  destruct (Namespace.isolate_module args) as [| |b| |]; cbn;
    try discriminate.
  destruct (acp args) eqn:Hacp; [discriminate|].
  destruct (cls args) as [e|c'] eqn:Hcls; [discriminate|].
  intros [= <-]. exists r, m, b.
  apply String.eqb_neq in Hr, Hm. auto 10.
Qed.

Lemma from_namespace_validates_witness :
  exists r m b,
    PyStr "/request" = PyStr r /\ r <> EmptyString
    /\ PyStr "echo.py" = PyStr m /\ m <> EmptyString
    /\ PyBool false = PyBool b
    /\ @None exn = None
    /\ @inr exn nat 7 = inr 7.
Proof.
  apply (from_namespace_validates nat (fun _ => None) (fun _ => inr 7)
           (Namespace.make (PyStr "/request") (PyStr "echo.py")
                           (PyBool false)) 7).
  reflexivity.
Defined.

(** ** What [on_message] guarantees when it returns *)

Lemma upload_msg_request_ok env message tr tr' :
  upload_msg_request env message tr = (Ok tt, tr') ->
  Forall has_content (MsgRequest.files message)
  /\ tr' = tr ++ request_events message.
Proof.
  intros Hok. split.
  - rewrite upload_msg_request_eq in Hok.
    destruct (db_insert_msg env tr message); [discriminate|].
    now apply upload_msg_files_ok_content in Hok.
  - destruct (upload_msg_request_prefix env message tr) as (_ & _ & _ & H).
    rewrite Hok in H. exact (H eq_refl).
Qed.

Lemma upload_msg_response_ok env message tr tr' :
  upload_msg_response env message tr = (Ok tt, tr') ->
  Forall has_content (MsgResponse.files message)
  /\ tr' = tr ++ response_events message.
Proof.
  intros Hok. split.
  - rewrite upload_msg_response_eq in Hok.
    destruct (db_insert_reply env tr message); [discriminate|].
    now apply upload_msg_files_ok_content in Hok.
  - destruct (upload_msg_response_prefix env message tr) as (_ & _ & _ & H).
    rewrite Hok in H. exact (H eq_refl).
Qed.

(** X16: when [on_message] returns a response, it is the response the
    handler's run returned once the request was persisted; it carries the
    identifier of the request; the request and the response, with all their
    files, were persisted, in this order around the run; none of their files
    lacks its content. *)
Theorem on_message_returns env req tr resp tr' :
  on_message env req tr = (Ok resp, tr') ->
  module_run env (tr ++ request_events req) req = inr resp
  /\ MsgResponse.msg_uuid resp = MsgRequest.msg_uuid req
  /\ tr' = tr ++ request_events req ++ [EvRun req] ++ response_events resp
  /\ Forall has_content (MsgRequest.files req)
  /\ Forall has_content (MsgResponse.files resp).
Proof.
  intros Hok.
  pose proof (on_message_ok_uuid env _ _ _ _ Hok) as Hid.
  destruct (upload_msg_request env req tr) as [[[]|e] tr1] eqn:Hup.
  2:{ rewrite (on_message_persist_fault env _ _ _ _ Hup) in Hok.
      discriminate. }
  destruct (upload_msg_request_ok env _ _ _ Hup) as (Hfiles & ->).
  destruct (module_run env (tr ++ request_events req) req)
    as [e|resp0] eqn:Hrun.
  { rewrite (on_message_run_fault env _ _ _ _ Hup Hrun) in Hok.
    discriminate. }
  rewrite (on_message_run_ok env _ _ _ _ Hup Hrun) in Hok.
  unfold bind in Hok.
  destruct (upload_msg_response env resp0 _) as [[[]|e] tr3] eqn:Hresp;
    [|discriminate].
  destruct (negb _); [discriminate|].
  injection Hok as -> ->.
  destruct (upload_msg_response_ok env _ _ _ Hresp) as (Hfiles' & ->).
  repeat split; auto. now rewrite <- !app_assoc.
Qed.

Lemma on_message_returns_witness :
  let env := Demo.mk_env [] Demo.echo Demo.never Demo.never in
  let req :=
    MsgRequest.make "m2" "discord" "1" "c1" "user" "nick" "/echo hi"
                    [Demo.a_file] "2024-01-01T00:00:00" in
  let resp :=
    MsgResponse.make "m2" (Some "/echo hi") None [] "2024-01-01T00:00:01" in
  request_events req ++ [EvRun req] ++ response_events resp
  = [] ++ request_events req ++ [EvRun req] ++ response_events resp.
Proof.
  intros env req resp.
  apply (proj1 (proj2 (proj2 (on_message_returns env req [] resp _ eq_refl)))).
Defined.

(** ** What the persistence writes *)

Lemma refers_to_incl msg_uuid flow files files' ev :
  incl files files' ->
  refers_to msg_uuid flow files ev -> refers_to msg_uuid flow files' ev.
Proof.
  intros Hincl. destruct ev; cbn; auto.
  - intros (file & Hin & H). exists file. auto.
  - intros (file & Hin & H). exists file. auto.
  - intros (Hu & Hf & file & Hin & H). repeat split; auto. exists file. auto.
Qed.

Lemma files_events_refer msg_uuid flow files :
  Forall (refers_to msg_uuid flow files) (files_events msg_uuid flow r2 files).
Proof.
  induction files as [|file rest IH]; [constructor|].
  cbn [files_events flat_map]. apply Forall_app. split.
  - unfold file_events. destruct (MsgFile.content file) as [data|] eqn:Hc;
      [|constructor].
    repeat (apply Forall_cons; [|]); try apply Forall_nil; cbn;
      try exact I;
      try (exists file; cbn; auto 10);
      (split; [reflexivity|]; split; [reflexivity|]; exists file; cbn; auto).
  - eapply Forall_impl; [|exact IH].
    intros ev. apply refers_to_incl. intros f Hf. now right.
Qed.

Lemma upload_msg_request_refers env message tr :
  exists new,
    snd (upload_msg_request env message tr) = tr ++ new
    /\ Forall (refers_to (MsgRequest.msg_uuid message) request
                         (MsgRequest.files message)) new.
Proof.
  destruct (upload_msg_request_prefix env message tr) as (k & _ & Hk & _).
  exists (firstn k (request_events message)). split; [exact Hk|].
  apply Forall_firstn. unfold request_events.
  repeat constructor. apply files_events_refer.
Qed.

Lemma upload_msg_response_refers env message tr :
  exists new,
    snd (upload_msg_response env message tr) = tr ++ new
    /\ Forall (refers_to (MsgResponse.msg_uuid message) response
                         (MsgResponse.files message)) new.
Proof.
  destruct (upload_msg_response_prefix env message tr) as (k & _ & Hk & _).
  exists (firstn k (response_events message)). split; [exact Hk|].
  apply Forall_firstn. unfold response_events.
  repeat constructor. apply files_events_refer.
Qed.

(** X17: every call of the persistence of a request refers to that request
    and to its files: the message record and the links carry its identifier,
    the links are on the request side, and each upload, metadata record and
    link is for one of its files, the upload under the path of the file with
    the content of the file.  The same holds for a response, on the response
    side. *)
Theorem persistence_refers_to_its_message env :
  (forall message tr,
     exists new,
       snd (upload_msg_request env message tr) = tr ++ new
       /\ Forall (refers_to (MsgRequest.msg_uuid message) request
                            (MsgRequest.files message)) new)
  /\ (forall message tr,
        exists new,
          snd (upload_msg_response env message tr) = tr ++ new
          /\ Forall (refers_to (MsgResponse.msg_uuid message) response
                               (MsgResponse.files message)) new).
Proof.
  split; intros message tr;
    [apply upload_msg_request_refers | apply upload_msg_response_refers].
Qed.

(** ** Pops and pushes over the loop *)

Lemma refers_to_no_pop msg_uuid flow files ev :
  refers_to msg_uuid flow files ev -> is_pop ev = false.
Proof. destruct ev; cbn; tauto. Qed.

Lemma on_message_no_pop env req tr :
  emits (fun ev => is_pop ev = false) (on_message env req) tr.
Proof.
  unfold on_message. apply emits_bind.
  { destruct (upload_msg_request_refers env req tr) as (new & Hnew & Hall).
    exists new. split; [exact Hnew|].
    eapply Forall_impl; [|exact Hall]. intros ev. apply refers_to_no_pop. }
  intros _ tr1 _. apply emits_bind.
  { apply emits_try_except; [now apply emits_call|].
    intros; apply emits_raise. }
  intros resp tr2 _. apply emits_bind.
  { destruct (upload_msg_response_refers env resp tr2) as (new & Hnew & Hall).
    exists new. split; [exact Hnew|].
    eapply Forall_impl; [|exact Hall]. intros ev. apply refers_to_no_pop. }
  intros _ tr3 _. destruct (negb _); [apply emits_raise | apply emits_ret].
Qed.

Lemma after_pop_no_pop env self packet tr :
  emits (fun ev => is_pop ev = false)
        (req <- check_packet env self packet ;;
         resp <- respond env self req ;;
         reply env self req resp) tr.
Proof.
  apply emits_bind.
  - unfold check_packet.
    destruct packet as [[key data]|]; [|apply emits_raise].
    apply emits_bind; [now apply emits_log|]. intros _ tr1 _.
    destruct (negb _); [apply emits_raise|].
    apply emits_bind.
    + destruct (MsgRequest_decode env data); [|apply emits_ret].
      apply emits_bind; [now apply emits_log|]. intros; apply emits_raise.
    + intros req tr2 _. destruct (String.eqb _ _); [apply emits_raise|].
      apply emits_bind; [|intros; apply emits_ret].
      destruct (_ <=? _)%Z; now apply emits_log.
  - intros req tr1 _. apply emits_bind.
    + unfold respond. apply emits_try_except; [apply on_message_no_pop|].
      intros e tr' _.
      apply emits_bind; [now apply emits_log|].
      intros _ tr2 _. apply emits_bind.
      * destruct (WorkerConfig.debug _);
          [now apply emits_log | apply emits_ret].
      * intros _ tr3 _. exists []. unfold MsgResponse_new. cbn.
        now rewrite app_nil_r.
    + intros resp tr2 _. unfold reply. apply emits_bind.
      * destruct (MsgResponse_encode env resp); [|apply emits_ret].
        apply emits_bind; [now apply emits_log|]. intros; apply emits_raise.
      * intros pkt tr' _. now apply emits_call_unit.
Qed.

Lemma polling_iter_one_pop env self tr :
  length (filter is_pop (snd (polling_iter env self tr)))
  = S (length (filter is_pop tr)).
Proof.
  rewrite polling_iter_stages. unfold recv_request. rewrite bind_assoc.
  unfold bind at 1, call.
  match goal with |- context [mq_brpop_bytes env tr ?q ?t] =>
    destruct (mq_brpop_bytes env tr q t) as [e|packet]
  end.
  - cbn [snd]. rewrite filter_app, length_app. cbn. lia.
  - match goal with |- context [snd (?c (tr ++ [?ev]))] =>
      pose proof (emits_filter is_pop c (tr ++ [ev])
                    (after_pop_no_pop env self packet (tr ++ [ev]))) as Hf
    end.
    rewrite Hf, filter_app, length_app. cbn. lia.
Qed.

Lemma polling_iter_pushes_le env self tr :
  length (filter is_push (snd (polling_iter env self tr)))
  <= S (length (filter is_push tr)).
Proof.
  destruct (recv_request env self tr) as [[req|e] tr1] eqn:Hrecv.
  - destruct (respond_returns env self tr1 req) as (resp & tr2 & Hresp).
    rewrite (polling_iter_recv_ok env self _ _ _ _ _ Hrecv Hresp).
    assert (Hpush : filter is_push tr2 = filter is_push tr).
    { replace tr2 with (snd (respond env self req tr1)) by now rewrite Hresp.
      rewrite respond_pushes.
      replace tr1 with (snd (recv_request env self tr)) by now rewrite Hrecv.
      apply recv_request_pushes. }
    destruct (MsgResponse_encode env resp) as [e|pkt] eqn:Henc.
    + rewrite (reply_encode_fault env self _ _ _ _ Henc). cbn [snd].
      rewrite filter_app, length_app, Hpush. cbn. lia.
    + rewrite (reply_push_trace env self _ _ _ _ Henc).
      rewrite filter_app, length_app, Hpush. cbn. lia.
  - rewrite (polling_iter_recv_raise env self _ _ _ Hrecv). cbn [snd].
    replace tr1 with (snd (recv_request env self tr)) by now rewrite Hrecv.
    rewrite recv_request_pushes. lia.
Qed.

Lemma filter_log_length (f : event -> bool) tr lvl text :
  f (EvLog lvl text) = false ->
  length (filter f (tr ++ [EvLog lvl text])) = length (filter f tr).
Proof.
  intros Hf. rewrite filter_app. cbn [filter]. rewrite Hf.
  now rewrite app_nil_r.
Qed.

(** X18: over any number of iterations the loop pops once per iteration
    and pushes at most once per pop: after [n] iterations at most [n] pops
    were added to the trace (exactly [n] while the loop runs), and no more
    pushes than pops. *)
Theorem loop_pops_and_pushes env self n tr r tr' :
  start_polling env self n tr = (r, tr') ->
  length (filter is_pop tr') <= length (filter is_pop tr) + n
  /\ length (filter is_push tr') + length (filter is_pop tr)
     <= length (filter is_push tr) + length (filter is_pop tr')
  /\ (r = Running ->
      length (filter is_pop tr') = length (filter is_pop tr) + n).
Proof.
  revert tr. induction n as [|n IH]; intros tr.
  - cbn. intros [= <- <-]. repeat split; lia.
  - pose proof (polling_iter_one_pop env self tr) as Hpop.
    pose proof (polling_iter_pushes_le env self tr) as Hpush.
    cbn [start_polling].
    assert (Hstep : forall tr1,
              length (filter is_pop tr1) = S (length (filter is_pop tr)) ->
              length (filter is_push tr1) <= S (length (filter is_push tr)) ->
              start_polling env self n tr1 = (r, tr') ->
              length (filter is_pop tr') <= length (filter is_pop tr) + S n
              /\ length (filter is_push tr') + length (filter is_pop tr)
                 <= length (filter is_push tr) + length (filter is_pop tr')
              /\ (r = Running ->
                  length (filter is_pop tr')
                  = length (filter is_pop tr) + S n)).
    { intros tr1 H1 H2 Hloop. apply IH in Hloop as (Ha & Hb & Hc).
      split; [lia|]. split; [lia|]. intros Hr. specialize (Hc Hr). lia. }
    destruct (polling_iter env self tr) as [[[]|e] tr1]; cbn [snd] in *.
    + now apply Hstep.
    + destruct (isinstance env e NoMessageIdError); [now apply Hstep|].
      destruct (isinstance env e CommandRuntimeError).
      { apply Hstep; now rewrite filter_log_length. }
      destruct (isinstance env e OsomApiError).
      { apply Hstep; now rewrite filter_log_length. }
      intros [= <- <-]. split; [lia|]. split; [lia | discriminate].
Qed.

Lemma loop_pops_and_pushes_witness :
  let env :=
    Demo.mk_env [None; Demo.packet "m1"; Demo.packet "-"] Demo.echo
                Demo.never Demo.never in
  length (filter is_pop (snd (start_polling env (Demo.ctx env) 3 [])))
  = 0 + 3.
Proof.
  intros env.
  refine (proj2 (proj2
    (loop_pops_and_pushes env (Demo.ctx env) 3 [] Running
       (snd (start_polling env (Demo.ctx env) 3 [])) _)) eq_refl).
  reflexivity.
Defined.
